(** * GUI_quiz.py: a shallow embedding of [QuizApp] and its properties

    The program is one Python class, [QuizApp], driven by the Tk event
    loop.  Its methods are embedded as computations in a monad of
    state and exceptions over the attributes of [self]; a Python
    exception leaves the mutations made before it in place.  The Tk
    widgets are kept as records of the options the program reads or
    sets (text, state, colours); fonts, sizes and layout are left out. *)

From Stdlib Require Import ZArith QArith String Ascii DecimalString.
From stdpp Require Import base tactics option list.

#[local] Set Warnings "-register-all".
Local Open Scope string_scope.
Local Open Scope Z_scope.

(** ** Decoded JSON values *)

(** A Python float as [json.load] can produce it: a finite value, kept
    by its exact rational value, an infinity or a NaN. *)
Inductive pyfloat :=
| FFinite (q : Q)
| FInf (negative : bool)
| FNaN.

(** The object [json.load] returns.  A dict is kept as the list of its
    items; its keys are pairwise different. *)
Inductive json :=
| JNull
| JBool (b : bool)
| JInt (z : Z)
| JFloat (f : pyfloat)
| JStr (s : string)
| JList (l : list json)
| JDict (d : list (string * json)).

(** ** Python exceptions and outcomes *)

Inductive exn := AttributeError | IndexError | KeyError | TypeError | TclError.

Inductive outcome (A : Type) :=
| Return (a : A)
| Raise (e : exn).
Arguments Return {A} a.
Arguments Raise {A} e.

(** ** Python operations on decoded values *)

(** [d[k]] on the items of a dict. *)
Fixpoint dict_get (k : string) (d : list (string * json)) : option json :=
  match d with
  | [] => None
  | (k', v) :: d' => if String.eqb k k' then Some v else dict_get k d'
  end.

(** The characters of a str, each a str of length one. *)
Fixpoint chars (s : string) : list json :=
  match s with
  | EmptyString => []
  | String a s' => JStr (String a EmptyString) :: chars s'
  end.

(** An object used as a sequence index: an int, or a bool (a subclass
    of int); anything else is a TypeError. *)
Definition as_index (v : json) : option Z :=
  match v with
  | JInt z => Some z
  | JBool b => Some (if b then 1 else 0)
  | _ => None
  end.

(** The position a sequence of length [n] gives to index [i]: a
    negative index counts from the end, an index out of
    [[-n, n)] is an IndexError. *)
Definition norm_index (n : nat) (i : Z) : option nat :=
  if (0 <=? i) && (i <? Z.of_nat n) then Some (Z.to_nat i)
  else if (- Z.of_nat n <=? i) && (i <? 0) then Some (Z.to_nat (i + Z.of_nat n))
  else None.

(** [seq[i]] for a Python list. *)
Definition list_getitem {A : Type} (l : list A) (i : Z) : outcome A :=
  match norm_index (length l) i with
  | Some n => match l !! n with Some a => Return a | None => Raise IndexError end
  | None => Raise IndexError
  end.

(** [container[key]]. *)
Definition py_getitem (container key : json) : outcome json :=
  match container with
  | JList l =>
      match as_index key with
      | Some i => list_getitem l i
      | None => Raise TypeError
      end
  | JStr s =>
      match as_index key with
      | Some i => list_getitem (chars s) i
      | None => Raise TypeError
      end
  | JDict d =>
      match key with
      | JStr k => match dict_get k d with Some v => Return v | None => Raise KeyError end
      | JList _ | JDict _ => Raise TypeError
      | _ => Raise KeyError
      end
  | _ => Raise TypeError
  end.

(** [len(v)]. *)
Definition py_len (v : json) : outcome Z :=
  match v with
  | JList l => Return (Z.of_nat (length l))
  | JDict d => Return (Z.of_nat (length d))
  | JStr s => Return (Z.of_nat (String.length s))
  | _ => Raise TypeError
  end.

(** The items [for x in v] goes through: the elements of a list, the
    characters of a str, the keys of a dict. *)
Definition py_iter (v : json) : outcome (list json) :=
  match v with
  | JList l => Return l
  | JStr s => Return (chars s)
  | JDict d => Return (map (fun kv => JStr (fst kv)) d)
  | _ => Raise TypeError
  end.

(** [i == v] for an int [i]: numbers compare by value, a bool is the
    int 0 or 1, every other object differs from an int. *)
Definition py_eq_int (i : Z) (v : json) : bool :=
  match v with
  | JInt z => i =? z
  | JBool b => i =? (if b then 1 else 0)
  | JFloat (FFinite q) => Qeq_bool (inject_Z i) q
  | _ => false
  end.

(** [str(z)] for an int. *)
Definition py_str_int (z : Z) : string := NilZero.string_of_int (Z.to_int z).

(** ** Widgets and the application object *)

(** What a widget shows: a str the program built, a decoded object
    handed to Tk as it is, or the f-string [f"{prefix}{v}"] of a
    decoded object (how [str] renders the object is not needed). *)
Inductive text :=
| Str (s : string)
| Obj (v : json)
| FStr (prefix : string) (v : json).

Inductive wstate := normal | disabled.

(** A [tk.Label]; [l_fg = None] is Tk's default colour. *)
Record Label := mkLabel { l_text : text; l_fg : option string }.

(** A [tk.Button]. *)
Record Button := mkButton { b_text : text; b_state : wstate; b_bg : string }.

(** A [messagebox] call. *)
Inductive dialog :=
| showerror (title message : string)
| showinfo (title message : string).

(** The [QuizApp] object with the part of the world it acts on: the
    root window (destroyed or not) and the message boxes shown so far,
    oldest first.  An attribute that has not been assigned is [None]. *)
Record QuizApp := mkQuizApp {
  root_destroyed : bool;
  dialogs : list dialog;
  quiz_questions : option json;
  score : option Z;
  total_questions : option Z;
  current_question_index : option Z;
  question_label : option Label;
  alternative_buttons : option (list Button);
  feedback_label : option Label;
  score_label : option Label;
  next_button : option Button }.

(** The object when [__init__] is entered: a live root, no attribute. *)
Definition fresh : QuizApp :=
  mkQuizApp false [] None None None None None None None None None.

(** Assignments to the attributes.  Each one takes the object apart
    and builds it again with one field changed. *)
Definition set_root_destroyed (x : bool) (s : QuizApp) : QuizApp :=
  let 'mkQuizApp _ dl qq sc tq ci ql ab fl sl nb := s in
  mkQuizApp x dl qq sc tq ci ql ab fl sl nb.
Definition set_dialogs (x : list dialog) (s : QuizApp) : QuizApp :=
  let 'mkQuizApp rd _ qq sc tq ci ql ab fl sl nb := s in
  mkQuizApp rd x qq sc tq ci ql ab fl sl nb.
Definition set_quiz_questions (x : json) (s : QuizApp) : QuizApp :=
  let 'mkQuizApp rd dl _ sc tq ci ql ab fl sl nb := s in
  mkQuizApp rd dl (Some x) sc tq ci ql ab fl sl nb.
Definition set_score (x : Z) (s : QuizApp) : QuizApp :=
  let 'mkQuizApp rd dl qq _ tq ci ql ab fl sl nb := s in
  mkQuizApp rd dl qq (Some x) tq ci ql ab fl sl nb.
Definition set_total_questions (x : Z) (s : QuizApp) : QuizApp :=
  let 'mkQuizApp rd dl qq sc _ ci ql ab fl sl nb := s in
  mkQuizApp rd dl qq sc (Some x) ci ql ab fl sl nb.
Definition set_current_question_index (x : Z) (s : QuizApp) : QuizApp :=
  let 'mkQuizApp rd dl qq sc tq _ ql ab fl sl nb := s in
  mkQuizApp rd dl qq sc tq (Some x) ql ab fl sl nb.
Definition set_question_label (x : Label) (s : QuizApp) : QuizApp :=
  let 'mkQuizApp rd dl qq sc tq ci _ ab fl sl nb := s in
  mkQuizApp rd dl qq sc tq ci (Some x) ab fl sl nb.
Definition set_alternative_buttons (x : list Button) (s : QuizApp) : QuizApp :=
  let 'mkQuizApp rd dl qq sc tq ci ql _ fl sl nb := s in
  mkQuizApp rd dl qq sc tq ci ql (Some x) fl sl nb.
Definition set_feedback_label (x : Label) (s : QuizApp) : QuizApp :=
  let 'mkQuizApp rd dl qq sc tq ci ql ab _ sl nb := s in
  mkQuizApp rd dl qq sc tq ci ql ab (Some x) sl nb.
Definition set_score_label (x : Label) (s : QuizApp) : QuizApp :=
  let 'mkQuizApp rd dl qq sc tq ci ql ab fl _ nb := s in
  mkQuizApp rd dl qq sc tq ci ql ab fl (Some x) nb.
Definition set_next_button (x : Button) (s : QuizApp) : QuizApp :=
  let 'mkQuizApp rd dl qq sc tq ci ql ab fl sl _ := s in
  mkQuizApp rd dl qq sc tq ci ql ab fl sl (Some x).

(** ** The monad of the methods *)

Definition M (A : Type) : Type := QuizApp -> QuizApp * outcome A.

Definition ret {A : Type} (a : A) : M A := fun s => (s, Return a).
Definition raise {A : Type} (e : exn) : M A := fun s => (s, Raise e).
Definition bind {A B : Type} (m : M A) (k : A -> M B) : M B :=
  fun s =>
    match m s with
    | (s', Return a) => k a s'
    | (s', Raise e) => (s', Raise e)
    end.

Declare Scope py_scope.
Delimit Scope py_scope with py.
Notation "'let*' x := m 'in' k" := (bind m (fun x => k))
  (at level 10, x name, m at level 100, k at level 200) : py_scope.
Notation "m ;;; k" := (bind m (fun _ => k))
  (at level 100, k at level 200, right associativity) : py_scope.
Local Open Scope py_scope.

(** An operation that can raise without touching the object. *)
Definition lift {A : Type} (o : outcome A) : M A := fun s => (s, o).

(** Reading [self.attr]: AttributeError while it is not assigned. *)
Definition getattr {A : Type} (attr : QuizApp -> option A) : M A :=
  fun s => match attr s with Some a => (s, Return a) | None => (s, Raise AttributeError) end.

Definition modify (f : QuizApp -> QuizApp) : M unit := fun s => (f s, Return tt).

(** A Tcl command on a widget: TclError once the root is destroyed. *)
Definition tk_call : M unit :=
  fun s => if root_destroyed s then (s, Raise TclError) else (s, Return tt).

(** [self.root.destroy()]. *)
Definition destroy : M unit := tk_call ;;; modify (set_root_destroyed true).

(** [messagebox.showerror] and [messagebox.showinfo]. *)
Definition messagebox (d : dialog) : M unit :=
  modify (fun s => set_dialogs (dialogs s ++ [d]) s).

(** [self.<label>.config(...)]. *)
Definition config_label (attr : QuizApp -> option Label)
    (set : Label -> QuizApp -> QuizApp) (f : Label -> Label) : M unit :=
  let* w := getattr attr in tk_call ;;; modify (set (f w)).

(** [self.next_button.config(...)]. *)
Definition config_next_button (f : Button -> Button) : M unit :=
  let* w := getattr next_button in tk_call ;;; modify (set_next_button (f w)).

(** [self.alternative_buttons[i].config(...)]: the button object in
    the list is changed in place. *)
Definition config_button (i : Z) (f : Button -> Button) : M unit :=
  let* btns := getattr alternative_buttons in
  match norm_index (length btns) i with
  | Some n => tk_call ;;; modify (set_alternative_buttons (alter f n btns))
  | None => raise IndexError
  end.

(** [for x in l: body(x)]. *)
Fixpoint for_ {A : Type} (l : list A) (body : A -> M unit) : M unit :=
  match l with
  | [] => ret tt
  | a :: l' => body a ;;; for_ l' body
  end.

(** [for btn in self.alternative_buttons: btn.config(...)]. *)
Definition config_all_buttons (f : Button -> Button) : M unit :=
  let* btns := getattr alternative_buttons in
  for_ (seq 0 (length btns)) (fun k => config_button (Z.of_nat k) f).

Definition with_text (t : text) (b : Button) : Button := mkButton t (b_state b) (b_bg b).
Definition with_state (st : wstate) (b : Button) : Button := mkButton (b_text b) st (b_bg b).
Definition with_bg (c : string) (b : Button) : Button := mkButton (b_text b) (b_state b) c.

(** The text of a widget after [config(text=v)] with a decoded object
    [v]: tkinter leaves an option whose value is [None] out of the
    Tcl command, so on [null] the widget keeps its former text. *)
Definition tk_text (v : json) (former : text) : text :=
  match v with
  | JNull => former
  | _ => Obj v
  end.

(** ** The methods of [QuizApp] *)

Definition nl : string := String (ascii_of_nat 10) EmptyString.

(** [setup_widgets]: the labels, the three answer buttons and the
    Next button, with the options given at creation.  Creating a
    widget is a Tcl command. *)
Definition setup_widgets : M unit :=
  tk_call ;;;
  modify (set_question_label (mkLabel (Str "") (Some "#333333"))) ;;;
  modify (set_alternative_buttons []) ;;;
  for_ (seq 0 3) (fun _ =>
    tk_call ;;;
    let* btns := getattr alternative_buttons in
    modify (set_alternative_buttons (btns ++ [mkButton (Str "") normal "#4CAF50"]))) ;;;
  tk_call ;;;
  modify (set_feedback_label (mkLabel (Str "") None)) ;;;
  tk_call ;;;
  modify (set_score_label (mkLabel (Str "Score: 0") (Some "#333333"))) ;;;
  tk_call ;;;
  modify (set_next_button (mkButton (Str "Next") disabled "#008CBA")).

(** The loop [for i, alternative in enumerate(alternatives)] of
    [load_question], from position [i] on. *)
Fixpoint show_alternatives (i : Z) (alternatives : list json) : M unit :=
  match alternatives with
  | [] => ret tt
  | alternative :: rest =>
      config_button i (fun b => with_text (tk_text alternative (b_text b)) b) ;;;
      show_alternatives (i + 1) rest
  end.

(** [self.quiz_questions[self.current_question_index]]. *)
Definition current_question_data : M json :=
  let* qs := getattr quiz_questions in
  let* i := getattr current_question_index in
  lift (py_getitem qs (JInt i)).

Definition load_question : M unit :=
  config_label feedback_label set_feedback_label (fun w => mkLabel (Str "") (l_fg w)) ;;;
  config_next_button (with_state disabled) ;;;
  config_all_buttons (fun b => mkButton (b_text b) normal "#4CAF50") ;;;
  let* question_data := current_question_data in
  let* _ := getattr question_label in
  let* q := lift (py_getitem question_data (JStr "question")) in
  config_label question_label set_question_label
    (fun w => mkLabel (tk_text q (l_text w)) (l_fg w)) ;;;
  let* alternatives := lift (py_getitem question_data (JStr "alternatives")) in
  let* items := lift (py_iter alternatives) in
  show_alternatives 0 items.

Definition check_answer (user_answer : Z) : M unit :=
  config_all_buttons (with_state disabled) ;;;
  let* question_data := current_question_data in
  let* correct_answer_index := lift (py_getitem question_data (JStr "correct_answer")) in
  (if py_eq_int user_answer correct_answer_index then
     let* sc := getattr score in
     modify (set_score (sc + 1)) ;;;
     config_label feedback_label set_feedback_label
       (fun _ => mkLabel (Str "Correct!") (Some "green")) ;;;
     config_button user_answer (with_bg "green")
   else
     let* sc := getattr score in
     modify (set_score (sc - 1)) ;;;
     let* alternatives := lift (py_getitem question_data (JStr "alternatives")) in
     let* correct_answer_text := lift (py_getitem alternatives correct_answer_index) in
     config_label feedback_label set_feedback_label
       (fun _ => mkLabel (FStr "Incorrect! The correct answer was: " correct_answer_text)
                   (Some "red")) ;;;
     config_button user_answer (with_bg "red") ;;;
     let* _ := getattr alternative_buttons in
     match as_index correct_answer_index with
     | Some c => config_button c (with_bg "lightgreen")
     | None => raise TypeError
     end) ;;;
  let* _ := getattr score_label in
  let* sc := getattr score in
  config_label score_label set_score_label
    (fun w => mkLabel (Str ("Score: " ++ py_str_int sc)) (l_fg w)) ;;;
  config_next_button (with_state normal).

(** The message [show_final_results] chooses. *)
Definition result_message (score total_questions : Z) : string :=
  if score =? total_questions then
    "Congratulations! You've passed the quiz with a perfect score."
  else if score >=? total_questions / 2 then
    "You've achieved a good score."
  else
    "You've failed the quiz. Better luck next time!".

Definition final_text (score total_questions : Z) : string :=
  "Quiz Completed!" ++ nl ++ nl ++ "Your final score is " ++ py_str_int score ++
  " out of " ++ py_str_int total_questions ++ "." ++ nl ++ nl ++
  result_message score total_questions.

Definition show_final_results : M unit :=
  let* sc := getattr score in
  let* total := getattr total_questions in
  messagebox (showinfo "Quiz Over" (final_text sc total)) ;;;
  destroy.

Definition next_question : M unit :=
  let* i := getattr current_question_index in
  modify (set_current_question_index (i + 1)) ;;;
  let* i := getattr current_question_index in
  let* total := getattr total_questions in
  if i <? total then load_question else show_final_results.

(** What [open] and [json.load] make of [quiz_questions.json]: no such
    file (FileNotFoundError), a file that is not JSON (JSONDecodeError),
    or the decoded object.  [__init__] first sets the title, size and
    colour of the root, which are Tcl commands. *)
Inductive source :=
| NotFound
| Undecodable
| Decoded (v : json).

Definition __init__ (src : source) : M unit :=
  tk_call ;;;
  match src with
  | NotFound =>
      messagebox (showerror "Error" "quiz_questions.json not found!") ;;;
      destroy
  | Undecodable =>
      messagebox (showerror "Error" "Invalid format in quiz_questions.json!") ;;;
      destroy
  | Decoded v =>
      modify (set_quiz_questions v) ;;;
      modify (set_score 0) ;;;
      let* qs := getattr quiz_questions in
      let* n := lift (py_len qs) in
      modify (set_total_questions n) ;;;
      modify (set_current_question_index 0) ;;;
      setup_widgets ;;;
      load_question
  end.

(** ** The event loop *)

(** A click on answer button [i] or on the Next button. *)
Inductive event :=
| ClickAlternative (i : nat)
| ClickNext.

(** The command of a button runs when the button exists and is not
    disabled; a click on a disabled button does nothing.  Button [i]
    was given the command [lambda i=i: self.check_answer(i)]. *)
Definition click_alternative (i : nat) : M unit :=
  fun s =>
    match alternative_buttons s with
    | Some btns =>
        match btns !! i with
        | Some b =>
            match b_state b with
            | normal => check_answer (Z.of_nat i) s
            | disabled => (s, Return tt)
            end
        | None => (s, Return tt)
        end
    | None => (s, Return tt)
    end.

Definition click_next : M unit :=
  fun s =>
    match next_button s with
    | Some b =>
        match b_state b with
        | normal => next_question s
        | disabled => (s, Return tt)
        end
    | None => (s, Return tt)
    end.

Definition handler (e : event) : M unit :=
  match e with
  | ClickAlternative i => click_alternative i
  | ClickNext => click_next
  end.

(** One turn of [root.mainloop()]: events are handled while the root
    exists; an exception raised by a command is reported by Tk and the
    loop goes on with the object as the command left it. *)
Definition dispatch (s : QuizApp) (e : event) : QuizApp :=
  if root_destroyed s then s else fst (handler e s).

Definition mainloop (events : list event) (s : QuizApp) : QuizApp :=
  fold_left dispatch events s.

(** The program: [app = QuizApp(root)] then [root.mainloop()]; an
    exception out of [__init__] ends the program before the loop. *)
Definition main (src : source) (events : list event) : QuizApp :=
  match __init__ src fresh with
  | (s, Return _) => mainloop events s
  | (s, Raise _) => s
  end.

(** What reaches [root.mainloop()]: a click on one of the program's
    buttons, or the request of the window manager to close the
    window.  Tk binds that request of a root window to [destroy], and
    the program does not bind it to anything else. *)
Inductive window_event :=
| Click (e : event)
| CloseWindow.

Definition dispatch_window (s : QuizApp) (w : window_event) : QuizApp :=
  match w with
  | Click e => dispatch s e
  | CloseWindow => fst (destroy s)
  end.

Definition mainloop_window (wevents : list window_event) (s : QuizApp) : QuizApp :=
  fold_left dispatch_window wevents s.

(** The program when the user can also close the window. *)
Definition main_window (src : source) (wevents : list window_event) : QuizApp :=
  match __init__ src fresh with
  | (s, Return _) => mainloop_window wevents s
  | (s, Raise _) => s
  end.

(** ** The tiers of the specification *)

Inductive Tier := Perfect | Pass | Fail.

(** The tier in the specification's words: Perfect when the score is
    the total, else Pass from half the total (rounded down) on, else
    Fail. *)
Definition spec_tier (score total : Z) : Tier :=
  if score =? total then Perfect
  else if total / 2 <=? score then Pass
  else Fail.

(** The message the program shows for each tier. *)
Definition tier_message (t : Tier) : string :=
  match t with
  | Perfect => "Congratulations! You've passed the quiz with a perfect score."
  | Pass => "You've achieved a good score."
  | Fail => "You've failed the quiz. Better luck next time!"
  end.

(** ** States and inputs the properties speak about *)

(** The record the session is at:
    [quiz_questions[current_question_index]], when both attributes are
    assigned and the subscript does not raise. *)
Definition question_at (s : QuizApp) : option json :=
  match quiz_questions s, current_question_index s with
  | Some qs, Some i =>
      match py_getitem qs (JInt i) with Return q => Some q | Raise _ => None end
  | _, _ => None
  end.

(** The root exists and [setup_widgets] has run: every widget
    attribute is assigned and there are three answer buttons. *)
Definition widgets_ready (s : QuizApp) : bool :=
  negb (root_destroyed s) &&
  match question_label s, feedback_label s, score_label s, next_button s,
        alternative_buttons s with
  | Some _, Some _, Some _, Some _, Some btns => Nat.eqb (length btns) 3
  | _, _, _, _, _ => false
  end.

Definition is_normal (st : wstate) : bool :=
  match st with normal => true | disabled => false end.

(** A question is shown and waits for its answer: the answer buttons
    are enabled and the Next button is not. *)
Definition awaiting_answer (s : QuizApp) : bool :=
  widgets_ready s &&
  match alternative_buttons s, next_button s with
  | Some btns, Some nb =>
      forallb (fun b => is_normal (b_state b)) btns && negb (is_normal (b_state nb))
  | _, _ => false
  end.

(** An answer was given and Next is awaited: the answer buttons are
    disabled and the Next button is enabled. *)
Definition awaiting_next (s : QuizApp) : bool :=
  widgets_ready s &&
  match alternative_buttons s, next_button s with
  | Some btns, Some nb =>
      forallb (fun b => negb (is_normal (b_state b))) btns && is_normal (b_state nb)
  | _, _ => false
  end.

(** A record of the data model that the three buttons can show: a
    dict with a question, a list of at most three alternatives and an
    int [correct_answer] that is an index into the alternatives. *)
Definition playable (q : json) : bool :=
  match q with
  | JDict d =>
      match dict_get "question" d, dict_get "alternatives" d,
            dict_get "correct_answer" d with
      | Some _, Some (JList alts), Some (JInt c) =>
          (length alts <=? 3)%nat && (0 <=? c) && (c <? Z.of_nat (length alts))
      | _, _, _ => false
      end
  | _ => false
  end.

(** The answer on button [choice] is the correct one of record [q]. *)
Definition is_correct (q : json) (choice : nat) : bool :=
  match py_getitem q (JStr "correct_answer") with
  | Return c => py_eq_int (Z.of_nat choice) c
  | Raise _ => false
  end.

(** The clicks of a user who answers one question after the other:
    an answer button, then Next. *)
Definition answers_events (choices : list nat) : list event :=
  flat_map (fun c => [ClickAlternative c; ClickNext]) choices.

(** How many of the answers [choices], given to the questions [qs] in
    order, are correct and how many are not. *)
Fixpoint n_correct (qs : list json) (choices : list nat) : Z :=
  match qs, choices with
  | q :: qs', c :: choices' =>
      (if is_correct q c then 1 else 0) + n_correct qs' choices'
  | _, _ => 0
  end.

Fixpoint n_incorrect (qs : list json) (choices : list nat) : Z :=
  match qs, choices with
  | q :: qs', c :: choices' =>
      (if is_correct q c then 0 else 1) + n_incorrect qs' choices'
  | _, _ => 0
  end.

(** The dialog of the final result of a quiz of [total] questions:
    its text gives a score "out of" that total, followed by the
    message of the tier of the score. *)
Definition final_dialog (total : Z) (d : dialog) : Prop :=
  exists sc : Z,
    d = showinfo "Quiz Over"
          ("Quiz Completed!" ++ nl ++ nl ++ "Your final score is " ++
           py_str_int sc ++ " out of " ++ py_str_int total ++ "." ++ nl ++ nl ++
           tier_message (spec_tier sc total)).

(** A computation keeps a property of the object, whether it returns
    or raises. *)
Definition preserves {A : Type} (P : QuizApp -> Prop) (m : M A) : Prop :=
  forall s, P s -> P (fst (m s)).

(** A property kept when one answer button is changed in place by [f]. *)
Definition button_update_ok (P : QuizApp -> Prop) (f : Button -> Button) : Prop :=
  forall s l n, P s -> alternative_buttons s = Some l ->
                P (set_alternative_buttons (alter f n l) s).

(** A property that does not look at the widgets. *)
Definition ignores_widgets (P : QuizApp -> Prop) : Prop :=
  forall s ql ab fl sl nb,
    P s ->
    P (mkQuizApp (root_destroyed s) (dialogs s) (quiz_questions s) (score s)
         (total_questions s) (current_question_index s) ql ab fl sl nb).

(** Every answer button is disabled. *)
Definition buttons_disabled (s : QuizApp) : Prop :=
  match alternative_buttons s with
  | Some btns => Forall (fun b => b_state b = disabled) btns
  | None => True
  end.

(** A session on the questions [qs]: question [k] waits for its
    answer, the score is [z], no dialog has been shown. *)
Definition in_session (qs : list json) (k : nat) (z : Z) (s : QuizApp) : Prop :=
  awaiting_answer s = true /\
  quiz_questions s = Some (JList qs) /\
  score s = Some z /\
  total_questions s = Some (Z.of_nat (length qs)) /\
  current_question_index s = Some (Z.of_nat k) /\
  dialogs s = [].

(** The total is [n] and every dialog shown is the final result of a
    quiz of [n] questions. *)
Definition reports_total (n : Z) (s : QuizApp) : Prop :=
  total_questions s = Some n /\ Forall (final_dialog n) (dialogs s).

(** ** Sample inputs *)

Definition q1 : json :=
  JDict [("question", JStr "Q1");
         ("alternatives", JList [JStr "a"; JStr "b"; JStr "c"]);
         ("correct_answer", JInt 1)].

Definition q2 : json :=
  JDict [("question", JStr "Q2");
         ("alternatives", JList [JStr "x"; JStr "y"; JStr "z"]);
         ("correct_answer", JInt 0)].

(** Two alternatives only: the third button stays on the screen. *)
Definition q_two : json :=
  JDict [("question", JStr "Q");
         ("alternatives", JList [JStr "a"; JStr "b"]);
         ("correct_answer", JInt 0)].

(** Four alternatives. *)
Definition q_four : json :=
  JDict [("question", JStr "Q");
         ("alternatives", JList [JStr "a"; JStr "b"; JStr "c"; JStr "d"]);
         ("correct_answer", JInt 3)].

(** A [correct_answer] that is not an index of the alternatives. *)
Definition q_out_of_range : json :=
  JDict [("question", JStr "Q");
         ("alternatives", JList [JStr "a"; JStr "b"; JStr "c"]);
         ("correct_answer", JInt 5)].

(** The object after [__init__] on a list of records. *)
Definition started (qs : list json) : QuizApp :=
  fst (__init__ (Decoded (JList qs)) fresh).

(** The object [__init__] has built when it calls [load_question]. *)
Definition before_first_question (qs : list json) : QuizApp :=
  fst ((tk_call ;;;
        modify (set_quiz_questions (JList qs)) ;;;
        modify (set_score 0) ;;;
        modify (set_total_questions (Z.of_nat (length qs))) ;;;
        modify (set_current_question_index 0) ;;;
        setup_widgets) fresh).

(** ** What the further properties speak about *)

(** The number of clicks on answer buttons among the events. *)
Fixpoint answer_clicks (events : list event) : Z :=
  match events with
  | [] => 0
  | ClickAlternative _ :: events' => 1 + answer_clicks events'
  | ClickNext :: events' => answer_clicks events'
  end.

(** The score, when assigned, is at most [n] in absolute value. *)
Definition score_within (n : Z) (s : QuizApp) : Prop :=
  match score s with
  | Some z => - n <= z <= n
  | None => True
  end.

(** A record [load_question] can show on the three buttons: a dict
    with a question and with alternatives that can be gone through and
    are at most three. *)
Definition displayable (q : json) : bool :=
  match q with
  | JDict d =>
      match dict_get "question" d, dict_get "alternatives" d with
      | Some _, Some a =>
          match py_iter a with
          | Return items => (length items <=? 3)%nat
          | Raise _ => false
          end
      | _, _ => false
      end
  | _ => false
  end.

(** The program is running on the list [qs]: either the window is
    open, nothing has been shown in a dialog and the index is the one
    of a question, or the window is destroyed, the result has been
    shown once and the index is the total. *)
Definition running (qs : list json) (s : QuizApp) : Prop :=
  exists (i z : Z),
    quiz_questions s = Some (JList qs) /\
    current_question_index s = Some i /\
    total_questions s = Some (Z.of_nat (length qs)) /\
    score s = Some z /\
    ((root_destroyed s = false /\ dialogs s = [] /\ 0 <= i < Z.of_nat (length qs)) \/
     (root_destroyed s = true /\
      dialogs s = [showinfo "Quiz Over" (final_text z (Z.of_nat (length qs)))] /\
      i = Z.of_nat (length qs))).

(** The user has closed the window of a quiz on [qs] before its end:
    the window is destroyed, no dialog has been shown and the index
    is the one of a question. *)
Definition closed_early (qs : list json) (s : QuizApp) : Prop :=
  exists (i z : Z),
    quiz_questions s = Some (JList qs) /\
    current_question_index s = Some i /\
    total_questions s = Some (Z.of_nat (length qs)) /\
    score s = Some z /\
    root_destroyed s = true /\ dialogs s = [] /\ 0 <= i < Z.of_nat (length qs).

(** The object when [__init__] on the decoded object [v] has ended,
    normally or not. *)
Definition started_on (v : json) : QuizApp := fst (__init__ (Decoded v) fresh).

(** The score label shows the score. *)
Definition label_synced (s : QuizApp) : Prop :=
  l_text <$> score_label s = (fun z => Str ("Score: " ++ py_str_int z)) <$> score s.

(** Answer button [j] after [load_question] has shown the
    alternatives [alts]: enabled, in the base colour, with alternative
    [j] as its text when there is one that is not [null], and its
    former text otherwise. *)
Definition shown (alts : list json) (j : nat) (b : Button) : Button :=
  mkButton
    (match alts !! j with
     | Some JNull => b_text b
     | Some a => Obj a
     | None => b_text b
     end)
    normal "#4CAF50".

(** Answer button [k] after [check_answer] on the choice [j] when the
    correct index is [c]: disabled; green when it is the correct
    choice, red when it is a wrong choice, light green when it is the
    correct one that was not chosen. *)
Definition marked (j c : nat) (k : nat) (b : Button) : Button :=
  mkButton (b_text b) disabled
    (if (k =? j)%nat then (if (j =? c)%nat then "green" else "red")
     else if (k =? c)%nat then "lightgreen" else b_bg b).

(** No button of the window answers a click: the answer buttons and
    the Next button are disabled. *)
Definition frozen (s : QuizApp) : Prop :=
  buttons_disabled s /\
  match next_button s with Some b => b_state b = disabled | None => True end.

(** ** The quiz as a state machine *)

(** Where a quiz is: a question waits for its answer, an answered
    question waits for Next, or the result has been shown. *)
Inductive phase := Answering | Answered | Finished.

Record session := mkSession { at_question : nat; points : Z; in_phase : phase }.

(** What a click does to a quiz on the records [qs]: an answer on one
    of the three buttons counts while a question waits for it, Next
    goes on after an answer, every other click is ignored. *)
Definition session_step (qs : list json) (a : session) (e : event) : session :=
  match in_phase a, e with
  | Answering, ClickAlternative j =>
      match qs !! at_question a with
      | Some q =>
          if (j <? 3)%nat
          then mkSession (at_question a)
                 (points a + (if is_correct q j then 1 else -1)) Answered
          else a
      | None => a
      end
  | Answered, ClickNext =>
      mkSession (S (at_question a)) (points a)
        (if (S (at_question a) <? length qs)%nat then Answering else Finished)
  | _, _ => a
  end.

(** The object [s] is at the point [a] of a quiz on [qs]. *)
Definition represents (qs : list json) (a : session) (s : QuizApp) : Prop :=
  quiz_questions s = Some (JList qs) /\
  current_question_index s = Some (Z.of_nat (at_question a)) /\
  total_questions s = Some (Z.of_nat (length qs)) /\
  score s = Some (points a) /\
  label_synced s /\
  match in_phase a with
  | Answering =>
      awaiting_answer s = true /\ dialogs s = [] /\ (at_question a < length qs)%nat
  | Answered =>
      awaiting_next s = true /\ dialogs s = [] /\ (at_question a < length qs)%nat
  | Finished =>
      root_destroyed s = true /\
      dialogs s = [showinfo "Quiz Over" (final_text (points a) (Z.of_nat (length qs)))] /\
      at_question a = length qs
  end.

(** A record whose question and second alternative are [null]. *)
Definition q_null : json :=
  JDict [("question", JNull);
         ("alternatives", JList [JStr "x"; JNull; JStr "z"]);
         ("correct_answer", JInt 0)].

(** A record without [question]. *)
Definition q_no_question : json :=
  JDict [("alternatives", JList [JStr "x"; JStr "y"; JStr "z"]);
         ("correct_answer", JInt 2)].

(** The Next button, when there is one, is disabled. *)
Definition next_disabled (s : QuizApp) : Prop :=
  match next_button s with Some b => b_state b = disabled | None => True end.

(** [m] keeps [P] when it raises. *)
Definition raising_keeps {A : Type} (P : QuizApp -> Prop) (m : M A) : Prop :=
  forall s, P s ->
    match snd (m s) with Raise _ => P (fst (m s)) | Return _ => True end.

(** [m] establishes [Q] when it returns. *)
Definition returning_gives {A : Type} (Q : QuizApp -> Prop) (m : M A) : Prop :=
  forall s, match snd (m s) with Return _ => Q (fst (m s)) | Raise _ => True end.

(** The window offers one way on at most: the answer buttons are all
    disabled or the Next button is. *)
Definition one_way (s : QuizApp) : Prop := buttons_disabled s \/ next_disabled s.

(** * Properties *)

(** ** Basic facts on the operations *)

Lemma norm_index_nat (n k : nat) :
  (k < n)%nat -> norm_index n (Z.of_nat k) = Some k.
Proof.
  intros H. unfold norm_index.
  destruct (Z.leb_spec 0 (Z.of_nat k)); [|lia].
  destruct (Z.ltb_spec (Z.of_nat k) (Z.of_nat n)); [|lia].
  simpl. f_equal. lia.
Qed.

Lemma norm_index_three (i : Z) :
  norm_index 3 i =
    if (-3 <=? i) && (i <? 3) then Some (Z.to_nat (i mod 3)) else None.
Proof.
  unfold norm_index.
  destruct (Z.leb_spec 0 i), (Z.ltb_spec i (Z.of_nat 3)),
    (Z.leb_spec (- Z.of_nat 3) i), (Z.ltb_spec i 0),
    (Z.leb_spec (-3) i), (Z.ltb_spec i 3); simpl; try lia; try reflexivity;
    f_equal; f_equal.
  - rewrite Z.mod_small; lia.
  - assert (i = -3 \/ i = -2 \/ i = -1) as [->|[->| ->]] by lia; reflexivity.
Qed.

Lemma py_getitem_list (qs : list json) (k : nat) (q : json) :
  qs !! k = Some q -> py_getitem (JList qs) (JInt (Z.of_nat k)) = Return q.
Proof.
  intros H. simpl. unfold list_getitem.
  rewrite norm_index_nat by (eapply lookup_lt_Some; eassumption).
  now rewrite H.
Qed.

Lemma set_alternative_buttons_twice (x y : list Button) (s : QuizApp) :
  set_alternative_buttons x (set_alternative_buttons y s) = set_alternative_buttons x s.
Proof. destruct s; reflexivity. Qed.

(** The loop over the answer buttons, from button [a] on. *)
Lemma config_buttons_from (f : Button -> Button) (m a : nat) (l : list Button)
    (s : QuizApp) :
  root_destroyed s = false ->
  alternative_buttons s = Some l ->
  (a + m)%nat = length l ->
  for_ (seq a m) (fun k => config_button (Z.of_nat k) f) s =
    (set_alternative_buttons (take a l ++ (f <$> drop a l)) s, Return tt).
Proof.
  revert a l s. induction m as [|m IH]; intros a l s Hr Hl Hlen; simpl.
  - rewrite drop_ge, app_nil_r, take_ge by lia.
    destruct s; simpl in *; subst; reflexivity.
  - unfold bind at 1. unfold config_button at 1. unfold bind at 1.
    unfold getattr. rewrite Hl. rewrite norm_index_nat by lia.
    unfold bind, tk_call, modify. rewrite Hr.
    destruct (lookup_lt_is_Some_2 l a ltac:(lia)) as [x Hx].
    rewrite (IH (S a) (alter f a l)); try rewrite length_alter; try lia;
      try (destruct s; simpl in *; congruence).
    rewrite set_alternative_buttons_twice. do 2 f_equal.
    rewrite (take_S_r _ _ (f x)) by (rewrite list_lookup_alter_eq, Hx; reflexivity).
    rewrite take_alter_ge by lia. rewrite drop_alter_lt by lia.
    rewrite (drop_S l x a Hx). rewrite fmap_cons, <- app_assoc. reflexivity.
Qed.

Lemma config_all_buttons_ok (f : Button -> Button) (l : list Button) (s : QuizApp) :
  root_destroyed s = false ->
  alternative_buttons s = Some l ->
  config_all_buttons f s = (set_alternative_buttons (f <$> l) s, Return tt).
Proof.
  intros Hr Hl. unfold config_all_buttons, bind at 1, getattr. rewrite Hl.
  rewrite (config_buttons_from f (length l) 0 l s Hr Hl); reflexivity.
Qed.

(** ** Sequencing *)

Lemma bind_Return {A B : Type} (m : M A) (k : A -> M B) (s s' : QuizApp) (a : A) :
  m s = (s', Return a) -> bind m k s = k a s'.
Proof. intros H. unfold bind. now rewrite H. Qed.

Lemma bind_Raise {A B : Type} (m : M A) (k : A -> M B) (s s' : QuizApp) (e : exn) :
  m s = (s', Raise e) -> bind m k s = (s', Raise e).
Proof. intros H. unfold bind. now rewrite H. Qed.

Lemma bind_assoc {A B C : Type} (m : M A) (k : A -> M B) (k' : B -> M C) (s : QuizApp) :
  bind (bind m k) k' s = bind m (fun a => bind (k a) k') s.
Proof. unfold bind. destruct (m s) as [s' [a|e]]; reflexivity. Qed.

Lemma getattr_Some {A : Type} (attr : QuizApp -> option A) (s : QuizApp) (a : A) :
  attr s = Some a -> getattr attr s = (s, Return a).
Proof. intros H. unfold getattr. now rewrite H. Qed.

Lemma current_question_data_at (s : QuizApp) (q : json) :
  question_at s = Some q -> current_question_data s = (s, Return q).
Proof.
  unfold question_at, current_question_data, bind, getattr, lift.
  destruct (quiz_questions s) as [qs|]; [|discriminate].
  destruct (current_question_index s) as [i|]; [|discriminate].
  destruct (py_getitem qs (JInt i)); [|discriminate].
  now intros [= ->].
Qed.

(** ** Properties kept by the operations *)

Section Preserves.
Context (P : QuizApp -> Prop).

Lemma preserves_ret {A : Type} (a : A) : preserves P (ret a).
Proof. intros s H. exact H. Qed.

Lemma preserves_raise {A : Type} (e : exn) : preserves P (@raise A e).
Proof. intros s H. exact H. Qed.

Lemma preserves_lift {A : Type} (o : outcome A) : preserves P (lift o).
Proof. intros s H. exact H. Qed.

Lemma preserves_getattr {A : Type} (attr : QuizApp -> option A) :
  preserves P (getattr attr).
Proof. intros s H. unfold getattr. destruct (attr s); exact H. Qed.

Lemma preserves_tk_call : preserves P tk_call.
Proof. intros s H. unfold tk_call. destruct (root_destroyed s); exact H. Qed.

Lemma preserves_modify (f : QuizApp -> QuizApp) :
  (forall s, P s -> P (f s)) -> preserves P (modify f).
Proof. intros Hf s H. apply Hf, H. Qed.

Lemma preserves_bind {A B : Type} (m : M A) (k : A -> M B) :
  preserves P m -> (forall a, preserves P (k a)) -> preserves P (bind m k).
Proof.
  intros Hm Hk s H. unfold bind. specialize (Hm s H).
  destruct (m s) as [s' [a|e]]; simpl in *; [apply Hk, Hm | exact Hm].
Qed.

Lemma preserves_for_ {A : Type} (l : list A) (body : A -> M unit) :
  (forall a, preserves P (body a)) -> preserves P (for_ l body).
Proof.
  intros Hb. induction l as [|a l IH]; simpl.
  - apply preserves_ret.
  - apply preserves_bind; [apply Hb | intros _; exact IH].
Qed.

Lemma preserves_config_label (attr : QuizApp -> option Label)
    (set : Label -> QuizApp -> QuizApp) (f : Label -> Label) :
  (forall w s, P s -> P (set w s)) -> preserves P (config_label attr set f).
Proof.
  intros Hset. unfold config_label.
  apply preserves_bind; [apply preserves_getattr | intros w].
  apply preserves_bind; [apply preserves_tk_call | intros _].
  apply preserves_modify, Hset.
Qed.

Lemma preserves_config_next_button (f : Button -> Button) :
  (forall w s, P s -> P (set_next_button w s)) -> preserves P (config_next_button f).
Proof.
  intros Hset. unfold config_next_button.
  apply preserves_bind; [apply preserves_getattr | intros w].
  apply preserves_bind; [apply preserves_tk_call | intros _].
  apply preserves_modify, Hset.
Qed.

Lemma preserves_config_button (i : Z) (f : Button -> Button) :
  button_update_ok P f -> preserves P (config_button i f).
Proof.
  intros Hf s H. unfold config_button, bind, getattr.
  destruct (alternative_buttons s) as [l|] eqn:Hl; [|exact H].
  destruct (norm_index (length l) i) as [n|]; [|exact H].
  unfold tk_call. destruct (root_destroyed s); [exact H|].
  simpl. apply Hf; assumption.
Qed.

Lemma preserves_config_all_buttons (f : Button -> Button) :
  button_update_ok P f -> preserves P (config_all_buttons f).
Proof.
  intros Hf. unfold config_all_buttons.
  apply preserves_bind; [apply preserves_getattr | intros l].
  apply preserves_for_. intros k. apply preserves_config_button, Hf.
Qed.

Lemma preserves_show_alternatives (alternatives : list json) (i : Z) :
  (forall a, button_update_ok P (fun b => with_text (tk_text a (b_text b)) b)) ->
  preserves P (show_alternatives i alternatives).
Proof.
  intros Hf. revert i. induction alternatives as [|a l IH]; intros i; simpl.
  - apply preserves_ret.
  - apply preserves_bind; [apply preserves_config_button, Hf | intros _; apply IH].
Qed.
End Preserves.

(** Splits a goal [preserves P m] along the structure of [m]; what is
    left are the conditions on the assignments. *)
Ltac preserve :=
  repeat match goal with
  | |- preserves _ (config_label _ _ _) => apply preserves_config_label
  | |- preserves _ (config_next_button _) => apply preserves_config_next_button
  | |- preserves _ (config_button _ _) => apply preserves_config_button
  | |- preserves _ (config_all_buttons _) => apply preserves_config_all_buttons
  | |- preserves _ (show_alternatives _ _) => apply preserves_show_alternatives
  | |- preserves _ (for_ _ _) => apply preserves_for_; intro
  | |- preserves _ (ret _) => apply preserves_ret
  | |- preserves _ (raise _) => apply preserves_raise
  | |- preserves _ (lift _) => apply preserves_lift
  | |- preserves _ (getattr _) => apply preserves_getattr
  | |- preserves _ current_question_data => unfold current_question_data
  | |- preserves _ tk_call => apply preserves_tk_call
  | |- preserves _ (modify _) => apply preserves_modify
  | |- preserves _ (bind _ _) => apply preserves_bind; [|intro]
  | |- preserves _ (if ?b then _ else _) => destruct b
  | |- preserves _ (match ?o with Some _ => _ | None => _ end) => destruct o
  end.

Lemma preserves_load_question (P : QuizApp -> Prop) :
  ignores_widgets P -> preserves P load_question.
Proof.
  intros HP. unfold load_question. preserve;
    try (intros w s H; destruct s; exact (HP _ _ _ _ _ _ H));
    try (intros s l n H _; destruct s; exact (HP _ _ _ _ _ _ H)).
  intros x s l n H _; destruct s; exact (HP _ _ _ _ _ _ H).
Qed.

Lemma preserves_check_answer (P : QuizApp -> Prop) (user_answer : Z) :
  ignores_widgets P ->
  (forall x s, P s -> P (set_score x s)) ->
  preserves P (check_answer user_answer).
Proof.
  intros HP Hsc. unfold check_answer. preserve;
    try (intros w s H; destruct s; exact (HP _ _ _ _ _ _ H));
    try (intros s l n H _; destruct s; exact (HP _ _ _ _ _ _ H));
    try (intros s H; apply Hsc, H).
Qed.

Lemma preserves_show_final_results (P : QuizApp -> Prop) :
  (forall x s, P s -> P (set_dialogs x s)) ->
  (forall x s, P s -> P (set_root_destroyed x s)) ->
  preserves P show_final_results.
Proof.
  intros Hd Hr. unfold show_final_results, messagebox, destroy. preserve.
  - intros s H. apply Hd, H.
  - intros s H. apply Hr, H.
Qed.

Lemma preserves_next_question (P : QuizApp -> Prop) :
  ignores_widgets P ->
  (forall x s, P s -> P (set_current_question_index x s)) ->
  preserves P show_final_results ->
  preserves P next_question.
Proof.
  intros HP Hi Hf. unfold next_question. preserve.
  - intros s H. apply Hi, H.
  - apply preserves_load_question, HP.
  - exact Hf.
Qed.

Lemma dispatch_next_score (s : QuizApp) : score (dispatch s ClickNext) = score s.
Proof.
  unfold dispatch. destruct (root_destroyed s); [reflexivity|]. simpl.
  unfold click_next. destruct (next_button s) as [b|]; [|reflexivity].
  destruct (b_state b); [|reflexivity].
  apply (preserves_next_question (fun s' => score s' = score s)); [| | |reflexivity].
  - intros s0 ql ab fl sl nb H. exact H.
  - intros x [] H. exact H.
  - apply preserves_show_final_results; intros x [] H; exact H.
Qed.

Lemma mainloop_snoc (events : list event) (e : event) (s : QuizApp) :
  mainloop (events ++ [e]) s = dispatch (mainloop events s) e.
Proof. unfold mainloop. rewrite fold_left_app. reflexivity. Qed.

(** Next after any events leaves the score of the program as it is. *)
Lemma main_next_score (src : source) (events : list event) :
  score (main src (events ++ [ClickNext])) = score (main src events).
Proof.
  unfold main. destruct (__init__ src fresh) as [s [[]|e]]; [|reflexivity].
  rewrite mainloop_snoc. apply dispatch_next_score.
Qed.

(** ** Evaluating a method call step by step

    The left-hand side of a goal [m s = ?r] is reduced to weak head
    normal form; where the reduction stops at an operation on a
    decoded value, an hypothesis or a computation on closed arguments
    gives its result. *)

Ltac whnf_lhs :=
  match goal with
  | |- ?l = _ =>
      let t := eval lazy head beta iota zeta delta
                 -[py_getitem dict_get norm_index py_eq_int py_iter py_len as_index
                   Z.eqb Z.ltb Z.leb Z.geb] in l in
      progress change l with t
  end.

Ltac closed_outcome t :=
  let v := eval vm_compute in t in
  match v with
  | Return _ => idtac | Raise _ => idtac
  | Some _ => idtac | None => idtac
  | true => idtac | false => idtac
  end;
  change t with v.

Ltac unstick :=
  match goal with
  | H : ?t = _ |- context [?t] => rewrite H
  | |- context [norm_index ?n ?i] => closed_outcome (norm_index n i)
  | |- context [py_getitem ?a ?b] => closed_outcome (py_getitem a b)
  | |- context [py_iter ?a] => closed_outcome (py_iter a)
  | |- context [py_len ?a] => closed_outcome (py_len a)
  | |- context [as_index ?a] => closed_outcome (as_index a)
  | |- context [py_eq_int ?a (JInt ?b)] => change (py_eq_int a (JInt b)) with (Z.eqb a b)
  | |- context [Z.eqb ?a ?b] => closed_outcome (Z.eqb a b)
  | |- context [Z.ltb ?a ?b] => closed_outcome (Z.ltb a b)
  end.

Ltac nat_literal n :=
  match n with
  | O => idtac
  | S ?m => nat_literal m
  end.

Ltac closed_length :=
  match goal with
  | |- context [norm_index (length ?l) _] =>
      let n := eval cbv in (length l) in
      nat_literal n; progress change (length l) with n
  end.

Ltac steps := repeat first [whnf_lhs | closed_length | unstick].

(** Replaces [m s] in the goal by the state and outcome it evaluates to. *)
Ltac evaluate t :=
  let H := fresh "Hrun" in
  eassert (t = _) as H;
    [steps; match goal with |- (_, _) = _ => reflexivity end | rewrite !H; clear H].

(** ** Final tier *)

Lemma tier_message_inj (t u : Tier) : tier_message t = tier_message u -> t = u.
Proof. destruct t, u; simpl; intros H; try reflexivity; discriminate H. Qed.

Lemma result_message_spec_tier (score total : Z) :
  result_message score total = tier_message (spec_tier score total).
Proof.
  unfold result_message, spec_tier.
  destruct (score =? total); [reflexivity|].
  rewrite Z.geb_leb. destruct (total / 2 <=? score); reflexivity.
Qed.

(** The text of the result, written out. *)
Lemma final_text_written_out (score total : Z) :
  final_text score total =
    "Quiz Completed!" ++ nl ++ nl ++ "Your final score is " ++
    py_str_int score ++ " out of " ++ py_str_int total ++ "." ++ nl ++ nl ++
    tier_message (spec_tier score total).
Proof. unfold final_text. rewrite result_message_spec_tier. reflexivity. Qed.

Lemma half_floor (total score : Z) : total / 2 <= score <-> total <= 2 * score + 1.
Proof.
  pose proof (Z.div_mod total 2 ltac:(lia)).
  pose proof (Z.mod_pos_bound total 2 ltac:(lia)). lia.
Qed.

(** C1: the message of [show_final_results] is the one of the tier
    chosen by the thresholds in priority order: Perfect exactly when
    the score equals the total; otherwise Pass exactly when the score
    is at least the total halved and rounded down (so for an odd total
    the half is rounded down); otherwise Fail.  With total 5, score 2
    passes and score 1 fails; with total 10, score 5 passes, score 4
    fails and score 10 is perfect. *)
Theorem tier_thresholds :
  (forall score total : Z,
      result_message score total = tier_message (spec_tier score total) /\
      (result_message score total = tier_message Perfect <-> score = total) /\
      (result_message score total = tier_message Pass <->
         score <> total /\ total / 2 <= score) /\
      (result_message score total = tier_message Fail <->
         score <> total /\ score < total / 2) /\
      (total / 2 <= score <-> total <= 2 * score + 1)) /\
  result_message 2 5 = tier_message Pass /\
  result_message 1 5 = tier_message Fail /\
  result_message 5 10 = tier_message Pass /\
  result_message 4 10 = tier_message Fail /\
  result_message 10 10 = tier_message Perfect.
Proof.
  split; [|repeat split; reflexivity].
  intros score total. rewrite result_message_spec_tier.
  split; [reflexivity|].
  split; [|split; [|split; [|apply half_floor]]]; unfold spec_tier;
    destruct (Z.eqb_spec score total) as [He|Hne];
    try destruct (Z.leb_spec (total / 2) score) as [Hle|Hlt];
    (split; [intros H; first [discriminate H | lia] | intros H; first [reflexivity | lia]]).
Qed.

Ltac evaluate_call f :=
  match goal with
  | |- context [f ?s] => evaluate (f s)
  end.

(** ** Start-up *)

Lemma mainloop_destroyed (events : list event) (s : QuizApp) :
  root_destroyed s = true -> mainloop events s = s.
Proof.
  intros H. induction events as [|e events IH]; [reflexivity|].
  unfold mainloop in *. simpl. unfold dispatch at 2. rewrite H. exact IH.
Qed.

Lemma py_getitem_dict (d : list (string * json)) (k : string) (v : json) :
  dict_get k d = Some v -> py_getitem (JDict d) (JStr k) = Return v.
Proof. intros H. simpl. now rewrite H. Qed.

(** C8: when [quiz_questions.json] does not exist, [__init__] shows
    the error to the user, destroys the root and returns without
    assigning [score], [total_questions], [current_question_index] or
    any other attribute; the event loop then handles no event, whatever
    the user does, and the program ends in that state. *)
Theorem missing_source_no_session :
  __init__ NotFound fresh =
    (mkQuizApp true [showerror "Error" "quiz_questions.json not found!"]
       None None None None None None None None None, Return tt) /\
  forall events : list event,
    let s := main NotFound events in
    root_destroyed s = true /\
    dialogs s = [showerror "Error" "quiz_questions.json not found!"] /\
    quiz_questions s = None /\ score s = None /\ total_questions s = None /\
    current_question_index s = None /\ alternative_buttons s = None.
Proof.
  split; [reflexivity|]. intros events s. subst s. unfold main.
  change (__init__ NotFound fresh) with
    (mkQuizApp true [showerror "Error" "quiz_questions.json not found!"]
       None None None None None None None None None, @Return unit tt).
  cbv beta iota. rewrite mainloop_destroyed by reflexivity. repeat split.
Qed.

(** C4 (what the program does): with an empty list [__init__] assigns
    score 0, total 0 and index 0, builds the widgets, and then
    [load_question] raises IndexError on [quiz_questions[0]]: the
    exception leaves [__init__], no event is handled and no result is
    shown.  [next_question] guards the same call with
    [current_question_index < total_questions], and the result for
    score 0 of 0 would be the Perfect one. *)
Theorem empty_list_raises :
  let r := __init__ (Decoded (JList [])) fresh in
  snd r = Raise IndexError /\
  score (fst r) = Some 0 /\ total_questions (fst r) = Some 0 /\
  current_question_index (fst r) = Some 0 /\
  root_destroyed (fst r) = false /\ dialogs (fst r) = [] /\
  (forall events, main (Decoded (JList [])) events = fst r) /\
  result_message 0 0 = tier_message Perfect.
Proof. vm_compute. repeat split. Qed.

(** C5 (counterexample): a record whose [correct_answer] is 5 with
    three alternatives is loaded, the session starts and the question
    waits for its answer. *)
Lemma out_of_range_index_loads :
  playable q_out_of_range = false /\
  let r := __init__ (Decoded (JList [q_out_of_range])) fresh in
  snd r = Return tt /\ root_destroyed (fst r) = false /\ dialogs (fst r) = [] /\
  score (fst r) = Some 0 /\ total_questions (fst r) = Some 1 /\
  current_question_index (fst r) = Some 0 /\ awaiting_answer (fst r) = true.
Proof. vm_compute. repeat split. Qed.

(** [__init__] on a list whose first record can be shown. *)
Lemma init_displayable (d : list (string * json)) (rest : list json) (p : json)
    (alts : list json) :
  dict_get "question" d = Some p ->
  dict_get "alternatives" d = Some (JList alts) ->
  (length alts <= 3)%nat ->
  let r := __init__ (Decoded (JList (JDict d :: rest))) fresh in
  snd r = Return tt /\ root_destroyed (fst r) = false /\ dialogs (fst r) = [] /\
  quiz_questions (fst r) = Some (JList (JDict d :: rest)) /\
  score (fst r) = Some 0 /\ current_question_index (fst r) = Some 0 /\
  total_questions (fst r) = Some (Z.of_nat (S (length rest))) /\
  awaiting_answer (fst r) = true.
Proof.
  intros Hq Ha Hlen r. subst r.
  pose proof (py_getitem_list (JDict d :: rest) 0 (JDict d) eq_refl) as H0.
  change (Z.of_nat 0) with 0 in H0.
  pose proof (py_getitem_dict d _ _ Hq) as H1.
  pose proof (py_getitem_dict d _ _ Ha) as H2.
  clear Hq Ha.
  destruct alts as [|a0 [|a1 [|a2 [|a3 alts]]]]; simpl in Hlen; try lia; clear Hlen;
    unfold fresh; evaluate_call (__init__ (Decoded (JList (JDict d :: rest))));
    repeat split.
Qed.

(** C5 (amended): the only check at load time is the decoding.  A file
    that is not JSON gives the invalid-format error, a destroyed root
    and no session attribute.  The records are not validated: a list
    whose first record has a question and a list of at most three
    alternatives starts the session (score 0, index 0, the total is the
    length of the list, the first question waits for its answer),
    whatever the [correct_answer] of any record is, in range or not,
    of the right type or not, present or not. *)
Theorem load_checks_decoding_only :
  __init__ Undecodable fresh =
    (mkQuizApp true [showerror "Error" "Invalid format in quiz_questions.json!"]
       None None None None None None None None None, Return tt) /\
  forall (d : list (string * json)) (rest : list json) (p : json) (alts : list json),
    dict_get "question" d = Some p ->
    dict_get "alternatives" d = Some (JList alts) ->
    (length alts <= 3)%nat ->
    let r := __init__ (Decoded (JList (JDict d :: rest))) fresh in
    snd r = Return tt /\ root_destroyed (fst r) = false /\ dialogs (fst r) = [] /\
    quiz_questions (fst r) = Some (JList (JDict d :: rest)) /\
    score (fst r) = Some 0 /\ current_question_index (fst r) = Some 0 /\
    total_questions (fst r) = Some (Z.of_nat (S (length rest))) /\
    awaiting_answer (fst r) = true.
Proof.
  split; [reflexivity|]. intros d rest p alts Hq Ha Hlen.
  exact (init_displayable d rest p alts Hq Ha Hlen).
Qed.

Lemma load_checks_decoding_only_witness :
  let r := __init__ (Decoded (JList [q_out_of_range])) fresh in
  snd r = Return tt /\ root_destroyed (fst r) = false /\ dialogs (fst r) = [] /\
  quiz_questions (fst r) = Some (JList [q_out_of_range]) /\
  score (fst r) = Some 0 /\ current_question_index (fst r) = Some 0 /\
  total_questions (fst r) = Some 1 /\
  awaiting_answer (fst r) = true.
Proof.
  apply (proj2 load_checks_decoding_only _ [] (JStr "Q") [JStr "a"; JStr "b"; JStr "c"]);
    [reflexivity | reflexivity | simpl; lia].
Defined.

(** ** Showing a question *)

(** Opens up an object that satisfies [widgets_ready] and whose
    current record is known. *)
Ltac open_state s Hr Hq :=
  destruct s as [rd dl qq sc tq ci ql ab fl sl nb];
  unfold widgets_ready, question_at in Hr, Hq; simpl in Hr, Hq;
  destruct rd; [discriminate Hr|];
  destruct ql as [ql|]; [|discriminate Hr];
  destruct fl as [fl|]; [|discriminate Hr];
  destruct sl as [sl|]; [|discriminate Hr];
  destruct nb as [nb|]; [|discriminate Hr];
  destruct ab as [[|b0 [|b1 [|b2 [|b3 ab]]]]|]; try discriminate Hr;
  destruct qq as [qs|]; [|discriminate Hq];
  destruct ci as [i|]; [|discriminate Hq];
  let E := fresh "Hcur" in
  destruct (py_getitem qs (JInt i)) eqn:E; [|discriminate Hq];
  injection Hq as ->; clear Hr.

(** Opens up a playable record. *)
Ltac open_playable q Hp d p alts c Hd1 Hd2 Hd3 Hlen Hc0 Hc1 :=
  destruct q as [| | | | |?|d]; try discriminate Hp; simpl in Hp;
  destruct (dict_get "question" d) as [p|] eqn:Hd1; [|discriminate Hp];
  destruct (dict_get "alternatives" d) as [[| | | | |alts|]|] eqn:Hd2;
    try discriminate Hp;
  destruct (dict_get "correct_answer" d) as [[| |c| | | |]|] eqn:Hd3;
    try discriminate Hp;
  apply andb_prop in Hp as [Hp Hc1]; apply andb_prop in Hp as [Hlen Hc0];
  apply Nat.leb_le in Hlen; apply Z.leb_le in Hc0; apply Z.ltb_lt in Hc1.

(** C10: on an object with its three answer buttons, showing a record
    whose alternatives are a list of more than three items raises
    IndexError (the fourth item has no button), and showing returns
    normally exactly when the list has at most three items. *)
Theorem load_question_three_buttons (s : QuizApp) (q p : json) (alts : list json) :
  widgets_ready s = true ->
  question_at s = Some q ->
  py_getitem q (JStr "question") = Return p ->
  py_getitem q (JStr "alternatives") = Return (JList alts) ->
  ((3 < length alts)%nat -> snd (load_question s) = Raise IndexError) /\
  (snd (load_question s) = Return tt <-> (length alts <= 3)%nat).
Proof.
  intros Hr Hq Hp Ha. open_state s Hr Hq.
  destruct alts as [|a0 [|a1 [|a2 [|a3 alts]]]]; simpl length;
    evaluate_call load_question;
    (split; [intros Hlen; first [reflexivity | lia]
            | split; intros H; first [reflexivity | discriminate H | lia]]).
Qed.

Lemma load_question_three_buttons_witness :
  snd (load_question (before_first_question [q_four])) = Raise IndexError /\
  snd (load_question (before_first_question [q1])) = Return tt.
Proof.
  split.
  - refine (proj1 (load_question_three_buttons
              (before_first_question [q_four]) q_four (JStr "Q")
              [JStr "a"; JStr "b"; JStr "c"; JStr "d"] _ _ _ _) _);
      [reflexivity | reflexivity | reflexivity | reflexivity | simpl; lia].
  - refine (proj2 (proj2 (load_question_three_buttons
              (before_first_question [q1]) q1 (JStr "Q1")
              [JStr "a"; JStr "b"; JStr "c"] _ _ _ _)) _);
      [reflexivity | reflexivity | reflexivity | reflexivity | simpl; lia].
Defined.

Lemma load_question_shows (s : QuizApp) (q : json) :
  widgets_ready s = true ->
  question_at s = Some q ->
  playable q = true ->
  snd (load_question s) = Return tt /\ awaiting_answer (fst (load_question s)) = true.
Proof.
  intros Hr Hq Hp. open_state s Hr Hq.
  open_playable q Hp d p alts c Hd1 Hd2 Hd3 Hlen Hc0 Hc1.
  pose proof (py_getitem_dict d _ _ Hd1) as H1.
  pose proof (py_getitem_dict d _ _ Hd2) as H2.
  clear Hd1 Hd2 Hd3.
  destruct alts as [|a0 [|a1 [|a2 [|a3 alts]]]]; simpl in Hlen; try lia;
    evaluate_call load_question; split; reflexivity.
Qed.

(** What [load_question] keeps: everything but the widgets. *)
Lemma load_question_session (s : QuizApp) :
  let s' := fst (load_question s) in
  root_destroyed s' = root_destroyed s /\ dialogs s' = dialogs s /\
  quiz_questions s' = quiz_questions s /\ score s' = score s /\
  total_questions s' = total_questions s /\
  current_question_index s' = current_question_index s.
Proof.
  apply (preserves_load_question
           (fun s' => root_destroyed s' = root_destroyed s /\ dialogs s' = dialogs s /\
                      quiz_questions s' = quiz_questions s /\ score s' = score s /\
                      total_questions s' = total_questions s /\
                      current_question_index s' = current_question_index s)).
  - intros s0 ql ab fl sl nb H. exact H.
  - repeat split.
Qed.

(** ** Answering *)

Lemma preserves_apply {A : Type} (P : QuizApp -> Prop) (m : M A) (s : QuizApp) :
  preserves P m -> P s -> P (fst (m s)).
Proof. intros H. apply H. Qed.

(** The score [check_answer] leaves, once the comparison is reached. *)
Lemma check_answer_compares (s : QuizApp) (btns : list Button) (q c : json)
    (z user_answer : Z) :
  root_destroyed s = false ->
  alternative_buttons s = Some btns ->
  question_at s = Some q ->
  py_getitem q (JStr "correct_answer") = Return c ->
  score s = Some z ->
  score (fst (check_answer user_answer s)) =
    Some (if py_eq_int user_answer c then z + 1 else z - 1).
Proof.
  intros Hr Hb Hq Hc Hz. unfold check_answer.
  erewrite bind_Return by (apply config_all_buttons_ok; eassumption).
  erewrite bind_Return
    by (apply current_question_data_at; destruct s; exact Hq).
  erewrite bind_Return by (unfold lift; rewrite Hc; reflexivity).
  destruct (py_eq_int user_answer c).
  - rewrite bind_assoc.
    erewrite bind_Return by (apply getattr_Some; destruct s; exact Hz).
    rewrite bind_assoc. erewrite bind_Return by reflexivity.
    apply (preserves_apply (fun s' => score s' = Some (z + 1)));
      [|destruct s; reflexivity].
    preserve; try (intros w [] H; exact H); intros [] l n H _; exact H.
  - rewrite bind_assoc.
    erewrite bind_Return by (apply getattr_Some; destruct s; exact Hz).
    rewrite bind_assoc. erewrite bind_Return by reflexivity.
    apply (preserves_apply (fun s' => score s' = Some (z - 1)));
      [|destruct s; reflexivity].
    preserve; try (intros w [] H; exact H); intros [] l n H _; exact H.
Qed.

(** C2: in a session (the root exists, the answer buttons are there,
    the current record has a [correct_answer], the score is [z]),
    [check_answer] compares the answer with the correct index and
    leaves the score at [z + 1] when they are equal and at [z - 1]
    when they are not, whether or not the rest of the method raises;
    for an int [correct_answer] the comparison is equality of ints. *)
Theorem check_answer_score (s : QuizApp) (btns : list Button) (q c : json)
    (z user_answer : Z) :
  root_destroyed s = false ->
  alternative_buttons s = Some btns ->
  question_at s = Some q ->
  py_getitem q (JStr "correct_answer") = Return c ->
  score s = Some z ->
  score (fst (check_answer user_answer s)) =
    Some (if py_eq_int user_answer c then z + 1 else z - 1) /\
  (forall ci : Z, c = JInt ci ->
     score (fst (check_answer user_answer s)) =
       Some (if user_answer =? ci then z + 1 else z - 1)).
Proof.
  intros Hr Hb Hq Hc Hz.
  pose proof (check_answer_compares s btns q c z user_answer Hr Hb Hq Hc Hz) as H.
  split; [exact H | intros ci ->; exact H].
Qed.

Lemma check_answer_score_witness :
  score (fst (check_answer 1 (started [q1; q2]))) = Some 1 /\
  score (fst (check_answer 2 (started [q1; q2]))) = Some (-1).
Proof.
  split.
  - refine (proj1 (check_answer_score (started [q1; q2]) _ q1 (JInt 1) 0 1 _ _ _ _ _));
      reflexivity.
  - refine (proj1 (check_answer_score (started [q1; q2]) _ q1 (JInt 1) 0 2 _ _ _ _ _));
      reflexivity.
Defined.

Ltac evaluate_answer :=
  match goal with
  | |- context [check_answer ?a ?s] => evaluate (check_answer a s)
  end.

(** [check_answer] on a playable record, for any int: whether it
    returns, and what it leaves of the session. *)
Lemma check_answer_playable (s : QuizApp) (q : json) (z u : Z) :
  widgets_ready s = true ->
  question_at s = Some q ->
  playable q = true ->
  score s = Some z ->
  let r := check_answer u s in
  snd r = (if (-3 <=? u) && (u <? 3) then Return tt else Raise IndexError) /\
  (snd r = Return tt -> awaiting_next (fst r) = true) /\
  root_destroyed (fst r) = false /\ dialogs (fst r) = dialogs s /\
  quiz_questions (fst r) = quiz_questions s /\
  total_questions (fst r) = total_questions s /\
  current_question_index (fst r) = current_question_index s.
Proof.
  intros Hr Hq Hp Hz r. subst r. open_state s Hr Hq. simpl in Hz. subst sc.
  open_playable q Hp d p alts c Hd1 Hd2 Hd3 Hlen Hc0 Hc1.
  pose proof (py_getitem_dict d _ _ Hd2) as H2.
  pose proof (py_getitem_dict d _ _ Hd3) as H3.
  clear Hd1 Hd2 Hd3.
  pose proof (norm_index_three u) as Hn.
  destruct ((-3 <=? u) && (u <? 3)) eqn:Hi.
  - apply andb_prop in Hi as [Hi0 Hi1]. apply Z.leb_le in Hi0. apply Z.ltb_lt in Hi1.
    clear Hn.
    assert (u = -3 \/ u = -2 \/ u = -1 \/ u = 0 \/ u = 1 \/ u = 2)
      as [->|[->|[->|[->|[->| ->]]]]] by lia;
    destruct alts as [|a0 [|a1 [|a2 [|a3 alts]]]]; simpl in Hlen, Hc1; try lia;
    (assert (c = 0 \/ c = 1 \/ c = 2) as [->|[->| ->]] by lia); try lia;
    clear Hi0 Hi1 Hc0 Hc1 Hlen;
    evaluate_answer; repeat split.
  - assert ((u =? c) = false) as Hne.
    { apply Z.eqb_neq. intros ->. rewrite Bool.andb_false_iff in Hi.
      rewrite Z.leb_gt, Z.ltb_ge in Hi. simpl in Hlen. lia. }
    destruct alts as [|a0 [|a1 [|a2 [|a3 alts]]]]; simpl in Hlen, Hc1; try lia;
    (assert (c = 0 \/ c = 1 \/ c = 2) as [->|[->| ->]] by lia); try lia;
    clear Hi Hc0 Hc1 Hlen;
    evaluate_answer; repeat split; try (intros H; discriminate H).
Qed.

Lemma widgets_ready_inv (s : QuizApp) :
  widgets_ready s = true ->
  root_destroyed s = false /\
  exists b0 b1 b2, alternative_buttons s = Some [b0; b1; b2].
Proof.
  destruct s as [rd dl qq sc tq ci ql ab fl sl nb]. unfold widgets_ready. simpl.
  destruct rd; [discriminate|].
  destruct ql, fl, sl, nb, ab as [[|b0 [|b1 [|b2 [|b3 ab]]]]|]; try discriminate.
  intros _. split; [reflexivity | eauto].
Qed.

Lemma playable_inv (q : json) :
  playable q = true ->
  exists p alts c,
    py_getitem q (JStr "question") = Return p /\
    py_getitem q (JStr "alternatives") = Return (JList alts) /\
    py_getitem q (JStr "correct_answer") = Return (JInt c) /\
    (length alts <= 3)%nat /\ 0 <= c < Z.of_nat (length alts).
Proof.
  intros Hp. open_playable q Hp d p alts c Hd1 Hd2 Hd3 Hlen Hc0 Hc1.
  exists p, alts, c. simpl. rewrite Hd1, Hd2, Hd3. repeat split; assumption.
Qed.

(** C7 (counterexample): the record has two alternatives; the third
    button is on the screen and enabled, a click on it runs
    [check_answer 2], which returns normally and takes a point. *)
Lemma out_of_range_choice_accepted :
  let s := started [q_two] in
  awaiting_answer s = true /\ score s = Some 0 /\
  py_getitem q_two (JStr "alternatives") = Return (JList [JStr "a"; JStr "b"]) /\
  click_alternative 2 s = check_answer 2 s /\
  snd (check_answer 2 s) = Return tt /\
  score (fst (check_answer 2 s)) = Some (-1).
Proof. vm_compute. repeat split. Qed.

(** C7 (amended): [check_answer] does not check the choice against the
    alternatives of the current record.  On a playable record a choice
    outside [[0, len(alternatives))] is a wrong answer: the score goes
    down by one, and the call returns normally when the choice is a
    Python index of the three buttons ([-3 <= choice < 3]) and raises
    IndexError, after the score has changed, when it is not.  A choice
    in range raises nothing and moves the score by one, up when it is
    the correct index and down when it is not. *)
Theorem check_answer_no_range_check (s : QuizApp) (q : json) (alts : list json)
    (c z u : Z) :
  widgets_ready s = true ->
  question_at s = Some q ->
  playable q = true ->
  py_getitem q (JStr "alternatives") = Return (JList alts) ->
  py_getitem q (JStr "correct_answer") = Return (JInt c) ->
  score s = Some z ->
  let r := check_answer u s in
  (u < 0 \/ Z.of_nat (length alts) <= u ->
     score (fst r) = Some (z - 1) /\
     snd r = (if (-3 <=? u) && (u <? 3) then Return tt else Raise IndexError)) /\
  (0 <= u < Z.of_nat (length alts) ->
     snd r = Return tt /\
     score (fst r) = Some (if u =? c then z + 1 else z - 1)).
Proof.
  intros Hr Hq Hp Ha Hc Hz r. subst r.
  destruct (widgets_ready_inv s Hr) as (Halive & b0 & b1 & b2 & Hb).
  destruct (playable_inv q Hp) as (p & alts' & c' & _ & Ha' & Hc' & Hlen & Hc0).
  rewrite Ha in Ha'. injection Ha' as <-. rewrite Hc in Hc'. injection Hc' as <-.
  pose proof (check_answer_compares s _ q (JInt c) z u Halive Hb Hq Hc Hz) as Hs.
  destruct (check_answer_playable s q z u Hr Hq Hp Hz) as (Ho & _).
  simpl in Hs. split.
  - intros Hout. rewrite Hs. split; [|exact Ho].
    destruct (Z.eqb_spec u c); [lia | reflexivity].
  - intros Hin. rewrite Hs. split; [|reflexivity]. rewrite Ho.
    destruct (Z.leb_spec (-3) u); [|lia]. destruct (Z.ltb_spec u 3); [reflexivity|lia].
Qed.

Lemma check_answer_no_range_check_witness :
  (let r := check_answer 2 (started [q_two]) in
   score (fst r) = Some (-1) /\ snd r = Return tt) /\
  (let r := check_answer 5 (started [q_two]) in
   score (fst r) = Some (-1) /\ snd r = Raise IndexError) /\
  (let r := check_answer 0 (started [q_two]) in
   snd r = Return tt /\ score (fst r) = Some 1).
Proof.
  split; [|split].
  - refine (proj1 (check_answer_no_range_check (started [q_two]) q_two
                     [JStr "a"; JStr "b"] 0 0 2 _ _ _ _ _ _) _);
      [reflexivity | reflexivity | reflexivity | reflexivity | reflexivity | reflexivity
      | right; simpl; lia].
  - refine (proj1 (check_answer_no_range_check (started [q_two]) q_two
                     [JStr "a"; JStr "b"] 0 0 5 _ _ _ _ _ _) _);
      [reflexivity | reflexivity | reflexivity | reflexivity | reflexivity | reflexivity
      | right; simpl; lia].
  - refine (proj2 (check_answer_no_range_check (started [q_two]) q_two
                     [JStr "a"; JStr "b"] 0 0 0 _ _ _ _ _ _) _);
      [reflexivity | reflexivity | reflexivity | reflexivity | reflexivity | reflexivity
      | simpl; lia].
Defined.

(** ** Answering twice *)

Lemma click_disabled (s : QuizApp) (j : nat) :
  buttons_disabled s -> click_alternative j s = (s, Return tt).
Proof.
  unfold buttons_disabled, click_alternative.
  destruct (alternative_buttons s) as [btns|]; [|reflexivity].
  intros H. destruct (btns !! j) as [b|] eqn:Hj; [|reflexivity].
  rewrite (Forall_lookup_1 _ _ _ _ H Hj). reflexivity.
Qed.

Lemma buttons_disabled_update (f : Button -> Button) :
  (forall b, b_state b = disabled -> b_state (f b) = disabled) ->
  button_update_ok buttons_disabled f.
Proof.
  intros Hf [] l n H Hl. unfold buttons_disabled in *. simpl in *. subst.
  apply Forall_alter; [exact H | intros b _; apply Hf].
Qed.

(** After [check_answer], however it ends, every answer button is
    disabled. *)
Lemma check_answer_disables (s : QuizApp) (u : Z) :
  root_destroyed s = false -> buttons_disabled (fst (check_answer u s)).
Proof.
  intros Hr. unfold check_answer.
  destruct (alternative_buttons s) as [btns|] eqn:Hb.
  - erewrite bind_Return by (apply config_all_buttons_ok; eassumption).
    apply (preserves_apply buttons_disabled).
    + preserve;
        try (intros w [] H; exact H);
        try (intros [] H; exact H);
        try (apply buttons_disabled_update; intros b Hd; exact Hd).
    + destruct s. unfold buttons_disabled. simpl.
      apply Forall_fmap, Forall_forall. reflexivity.
  - erewrite bind_Raise.
    + unfold buttons_disabled. simpl. now rewrite Hb.
    + unfold config_all_buttons. erewrite bind_Raise; [reflexivity|].
      unfold getattr. rewrite Hb. reflexivity.
Qed.

Lemma awaiting_answer_inv (s : QuizApp) :
  awaiting_answer s = true ->
  widgets_ready s = true /\
  forall c, (c < 3)%nat -> click_alternative c s = check_answer (Z.of_nat c) s.
Proof.
  unfold awaiting_answer. intros H. apply andb_prop in H as [Hr H]. split; [exact Hr|].
  destruct (widgets_ready_inv s Hr) as (_ & b0 & b1 & b2 & Hb).
  intros c Hc. unfold click_alternative. rewrite Hb in *.
  destruct (next_button s); [|discriminate H].
  apply andb_prop in H as [H _]. simpl in H.
  destruct (b_state b0) eqn:H0; [|discriminate H].
  destruct (b_state b1) eqn:H1; [|discriminate H].
  destruct (b_state b2) eqn:H2; [|discriminate H].
  destruct c as [|[|[|c]]]; simpl; try rewrite H0; try rewrite H1; try rewrite H2;
    try reflexivity; lia.
Qed.

(** A click on an enabled answer button of a playable question. *)
Lemma click_alternative_answers (s : QuizApp) (q : json) (z : Z) (c : nat) :
  awaiting_answer s = true ->
  question_at s = Some q ->
  playable q = true ->
  score s = Some z ->
  (c < 3)%nat ->
  let r := click_alternative c s in
  snd r = Return tt /\
  score (fst r) = Some (if is_correct q c then z + 1 else z - 1) /\
  awaiting_next (fst r) = true /\
  root_destroyed (fst r) = false /\ dialogs (fst r) = dialogs s /\
  quiz_questions (fst r) = quiz_questions s /\
  total_questions (fst r) = total_questions s /\
  current_question_index (fst r) = current_question_index s.
Proof.
  intros Ha Hq Hp Hz Hc r. subst r.
  destruct (awaiting_answer_inv s Ha) as [Hr Hclick]. rewrite (Hclick c Hc).
  destruct (widgets_ready_inv s Hr) as (Halive & b0 & b1 & b2 & Hb).
  destruct (playable_inv q Hp) as (p & alts & ci & _ & _ & Hci & _ & _).
  pose proof (check_answer_compares s _ q (JInt ci) z (Z.of_nat c) Halive Hb Hq Hci Hz)
    as Hs.
  destruct (check_answer_playable s q z (Z.of_nat c) Hr Hq Hp Hz)
    as (Ho & Hn & Hrest).
  assert (snd (check_answer (Z.of_nat c) s) = Return tt) as Hret.
  { rewrite Ho. destruct (Z.leb_spec (-3) (Z.of_nat c)); [|lia].
    destruct (Z.ltb_spec (Z.of_nat c) 3); [reflexivity|lia]. }
  split; [exact Hret|]. split.
  - rewrite Hs. unfold is_correct. rewrite Hci. reflexivity.
  - split; [exact (Hn Hret) | exact Hrest].
Qed.

(** C6 (counterexample): after the first answer a second click on an
    answer button returns normally, with no error; and [check_answer]
    itself, called again, returns normally too and changes the score
    again. *)
Lemma second_answer_raises_nothing :
  let s1 := fst (click_alternative 1 (started [q1; q2])) in
  score s1 = Some 1 /\ awaiting_next s1 = true /\
  click_alternative 0 s1 = (s1, Return tt) /\
  snd (check_answer 0 s1) = Return tt /\
  score (fst (check_answer 0 s1)) = Some 0.
Proof. vm_compute. repeat split. Qed.

Lemma clicks_disabled (s : QuizApp) (js : list nat) :
  buttons_disabled s -> mainloop (map ClickAlternative js) s = s.
Proof.
  intros H. induction js as [|j js IH]; [reflexivity|].
  unfold mainloop in *. simpl. unfold dispatch at 2.
  destruct (root_destroyed s); [exact IH|].
  simpl. rewrite (click_disabled s j H). exact IH.
Qed.

(** C6 (amended): [check_answer] disables the answer buttons, so
    after an answer, and until Next shows another question, a further
    click on an answer button is ignored: it raises nothing and leaves
    the object, the score with it, as it is, and so does any number of
    such clicks.  This holds however [check_answer] ended.  The first
    click on an enabled button of a playable question does succeed: it
    returns normally and moves the score by one. *)
Theorem second_click_ignored :
  (forall (s : QuizApp) (u : Z) (j : nat) (js : list nat),
     root_destroyed s = false ->
     let s1 := fst (check_answer u s) in
     click_alternative j s1 = (s1, Return tt) /\
     mainloop (map ClickAlternative js) s1 = s1) /\
  (forall (s : QuizApp) (q : json) (z : Z) (c j : nat),
     awaiting_answer s = true ->
     question_at s = Some q ->
     playable q = true ->
     score s = Some z ->
     (c < 3)%nat ->
     let r := click_alternative c s in
     snd r = Return tt /\
     score (fst r) = Some (if is_correct q c then z + 1 else z - 1) /\
     click_alternative j (fst r) = (fst r, Return tt)).
Proof.
  split.
  - intros s u j js Hr s1. split.
    + apply click_disabled, check_answer_disables, Hr.
    + apply clicks_disabled, check_answer_disables, Hr.
  - intros s q z c j Ha Hq Hp Hz Hc r. subst r.
    destruct (click_alternative_answers s q z c Ha Hq Hp Hz Hc) as (Hret & Hs & _).
    split; [exact Hret|]. split; [exact Hs|].
    destruct (awaiting_answer_inv s Ha) as [Hr Hclick]. rewrite (Hclick c Hc).
    apply click_disabled, check_answer_disables.
    apply (widgets_ready_inv s Hr).
Qed.

Lemma second_click_ignored_witness :
  (let s1 := fst (check_answer 1 (started [q1; q2])) in
   click_alternative 2 s1 = (s1, Return tt) /\
   mainloop [ClickAlternative 0; ClickAlternative 1; ClickAlternative 2] s1 = s1) /\
  (let r := click_alternative 1 (started [q1; q2]) in
   snd r = Return tt /\ score (fst r) = Some 1 /\
   click_alternative 0 (fst r) = (fst r, Return tt)).
Proof.
  split.
  - apply (proj1 second_click_ignored (started [q1; q2]) 1 2%nat [0; 1; 2]%nat).
    reflexivity.
  - apply (proj2 second_click_ignored (started [q1; q2]) q1 0 1%nat 0%nat);
      [reflexivity | reflexivity | reflexivity | reflexivity | lia].
Defined.

(** ** Going to the next question *)

Lemma awaiting_next_inv (s : QuizApp) :
  awaiting_next s = true ->
  widgets_ready s = true /\ click_next s = next_question s.
Proof.
  unfold awaiting_next. intros H. apply andb_prop in H as [Hr H]. split; [exact Hr|].
  unfold click_next. destruct (alternative_buttons s); [|discriminate H].
  destruct (next_button s) as [nb|]; [|discriminate H].
  apply andb_prop in H as [_ H]. destruct (b_state nb); [reflexivity | discriminate H].
Qed.

Lemma forallb_lookup {A : Type} (f : A -> bool) (l : list A) (k : nat) (a : A) :
  forallb f l = true -> l !! k = Some a -> f a = true.
Proof.
  intros H Hk. rewrite forallb_forall in H. apply H.
  apply list_elem_of_In. eapply list_elem_of_lookup_2. exact Hk.
Qed.

(** Next on an answered question: the following question is shown,
    or, after the last one, the result is shown and the root
    destroyed.  The score stays. *)
Lemma click_next_advances (s : QuizApp) (qs : list json) (k : nat) (z : Z) :
  awaiting_next s = true ->
  quiz_questions s = Some (JList qs) ->
  current_question_index s = Some (Z.of_nat k) ->
  total_questions s = Some (Z.of_nat (length qs)) ->
  score s = Some z ->
  forallb playable qs = true ->
  (k < length qs)%nat ->
  let s' := fst (click_next s) in
  score s' = Some z /\ quiz_questions s' = Some (JList qs) /\
  total_questions s' = Some (Z.of_nat (length qs)) /\
  current_question_index s' = Some (Z.of_nat (S k)) /\
  ((S k < length qs)%nat -> awaiting_answer s' = true /\ dialogs s' = dialogs s) /\
  (S k = length qs ->
     root_destroyed s' = true /\
     dialogs s' =
       (dialogs s ++ [showinfo "Quiz Over" (final_text z (Z.of_nat (length qs)))])%list).
Proof.
  intros Ha Hqs Hi Ht Hz Hall Hk s'. subst s'.
  destruct (awaiting_next_inv s Ha) as [Hr ->]. clear Ha.
  destruct s as [rd dl qq sc tq ci ql ab fl sl nb].
  unfold widgets_ready in Hr. simpl in *. subst qq ci tq sc.
  destruct rd; [discriminate Hr|].
  destruct ql as [ql|]; [|discriminate Hr].
  destruct fl as [fl|]; [|discriminate Hr].
  destruct sl as [sl|]; [|discriminate Hr].
  destruct nb as [nb|]; [|discriminate Hr].
  destruct ab as [[|b0 [|b1 [|b2 [|b3 ab]]]]|]; try discriminate Hr. clear Hr.
  replace (Z.of_nat (S k)) with (Z.of_nat k + 1) by lia.
  destruct (Z.ltb_spec (Z.of_nat k + 1) (Z.of_nat (length qs))) as [Hlt|Hge].
  - apply Z.ltb_lt in Hlt as Hlt'.
    destruct (lookup_lt_is_Some_2 qs (S k) ltac:(lia)) as [q Hq].
    pose proof (forallb_lookup _ _ _ _ Hall Hq) as Hp.
    pose proof (py_getitem_list qs (S k) q Hq) as Hcur.
    replace (Z.of_nat (S k)) with (Z.of_nat k + 1) in Hcur by lia.
    open_playable q Hp d p alts c Hd1 Hd2 Hd3 Hlen Hc0 Hc1.
    pose proof (py_getitem_dict d _ _ Hd1) as H1.
    pose proof (py_getitem_dict d _ _ Hd2) as H2.
    clear Hd1 Hd2 Hd3 Hc0 Hc1 Hq Hall Hk Hlt.
    destruct alts as [|a0 [|a1 [|a2 [|a3 alts]]]]; simpl in Hlen; try lia; clear Hlen;
      evaluate_call next_question; repeat split; intros; lia.
  - assert ((Z.of_nat k + 1 <? Z.of_nat (length qs)) = false) as Hlt'
      by (apply Z.ltb_ge; exact Hge).
    clear Hall Hk Hge.
    evaluate_call next_question. repeat split; intros; lia.
Qed.

(** ** A whole quiz *)

Lemma question_at_session (qs : list json) (k : nat) (z : Z) (s : QuizApp) (q : json) :
  in_session qs k z s -> qs !! k = Some q -> question_at s = Some q.
Proof.
  intros (_ & Hqs & _ & _ & Hi & _) Hq. unfold question_at.
  rewrite Hqs, Hi, (py_getitem_list qs k q Hq). reflexivity.
Qed.

(** One answer and Next. *)
Lemma play_round (s : QuizApp) (qs : list json) (k : nat) (z : Z) (q : json) (c : nat) :
  in_session qs k z s ->
  qs !! k = Some q ->
  forallb playable qs = true ->
  (c < 3)%nat ->
  let s' := dispatch (dispatch s (ClickAlternative c)) ClickNext in
  let z' := if is_correct q c then z + 1 else z - 1 in
  ((S k < length qs)%nat -> in_session qs (S k) z' s') /\
  (S k = length qs ->
     root_destroyed s' = true /\ score s' = Some z' /\
     total_questions s' = Some (Z.of_nat (length qs)) /\
     dialogs s' = [showinfo "Quiz Over" (final_text z' (Z.of_nat (length qs)))]).
Proof.
  intros Hs Hq Hall Hc s' z'.
  pose proof (question_at_session qs k z s q Hs Hq) as Hat.
  destruct Hs as (Ha & Hqs & Hz & Ht & Hi & Hd).
  destruct (awaiting_answer_inv s Ha) as [Hr _].
  destruct (widgets_ready_inv s Hr) as (Halive & _).
  pose proof (forallb_lookup _ _ _ _ Hall Hq) as Hp.
  destruct (click_alternative_answers s q z c Ha Hat Hp Hz Hc)
    as (_ & Hz1 & Hn1 & Hr1 & Hd1 & Hqs1 & Ht1 & Hi1).
  assert (dispatch s (ClickAlternative c) = fst (click_alternative c s)) as E1
    by (unfold dispatch; rewrite Halive; reflexivity).
  assert (s' = fst (click_next (fst (click_alternative c s)))) as E2
    by (subst s'; rewrite E1; unfold dispatch; rewrite Hr1; reflexivity).
  rewrite E2. clear E1 E2 s'.
  rewrite Hqs in Hqs1. rewrite Ht in Ht1. rewrite Hi in Hi1. rewrite Hd in Hd1.
  fold z' in Hz1.
  destruct (click_next_advances _ qs k z' Hn1 Hqs1 Hi1 Ht1 Hz1 Hall
              (lookup_lt_Some _ _ _ Hq))
    as (Hz2 & Hqs2 & Ht2 & Hi2 & Hmore & Hlast).
  split.
  - intros Hlt. destruct (Hmore Hlt) as [Ha2 Hd2]. rewrite Hd1 in Hd2.
    repeat split; assumption.
  - intros Heq. destruct (Hlast Heq) as [Hr2 Hd2]. rewrite Hd1 in Hd2.
    repeat split; assumption.
Qed.

Lemma n_correct_nil (qs : list json) : n_correct qs [] = 0.
Proof. destruct qs; reflexivity. Qed.

Lemma n_incorrect_nil (qs : list json) : n_incorrect qs [] = 0.
Proof. destruct qs; reflexivity. Qed.

Lemma tally_total (qs : list json) (choices : list nat) :
  (length choices <= length qs)%nat ->
  n_correct qs choices + n_incorrect qs choices = Z.of_nat (length choices) /\
  0 <= n_correct qs choices /\ 0 <= n_incorrect qs choices.
Proof.
  revert qs. induction choices as [|c choices IH]; intros qs Hlen.
  - rewrite n_correct_nil, n_incorrect_nil. simpl. lia.
  - destruct qs as [|q qs]; simpl in Hlen; [lia|].
    destruct (IH qs ltac:(lia)) as (H1 & H2 & H3).
    simpl n_correct. simpl n_incorrect. simpl length.
    destruct (is_correct q c); lia.
Qed.

(** The answers [choices] to the questions from [k] on. *)
Lemma play_all (choices : list nat) :
  forall (qs : list json) (k : nat) (z : Z) (s : QuizApp),
    in_session qs k z s ->
    forallb playable qs = true ->
    forallb (fun c => c <? 3)%nat choices = true ->
    (k + length choices <= length qs)%nat ->
    let s' := mainloop (answers_events choices) s in
    let z' := z + n_correct (drop k qs) choices - n_incorrect (drop k qs) choices in
    score s' = Some z' /\
    total_questions s' = Some (Z.of_nat (length qs)) /\
    ((k + length choices < length qs)%nat -> in_session qs (k + length choices) z' s') /\
    ((k + length choices)%nat = length qs -> choices <> [] ->
       root_destroyed s' = true /\
       dialogs s' = [showinfo "Quiz Over" (final_text z' (Z.of_nat (length qs)))]).
Proof.
  induction choices as [|c choices IH]; intros qs k z s Hs Hall Hc Hlen s' z'.
  - subst s' z'. rewrite n_correct_nil, n_incorrect_nil.
    replace (z + 0 - 0) with z by lia. simpl length. rewrite Nat.add_0_r.
    simpl. pose proof Hs as (Ha & Hqs & Hz & Ht & Hi & Hd).
    split; [exact Hz|]. split; [exact Ht|].
    split; [intros _; exact Hs | intros _ Hne; contradiction].
  - simpl in Hc. apply andb_prop in Hc as [Hc3 Hc]. apply Nat.ltb_lt in Hc3.
    simpl length in *.
    destruct (lookup_lt_is_Some_2 qs k ltac:(lia)) as [q Hq].
    destruct (play_round s qs k z q c Hs Hq Hall Hc3) as [Hmore Hlast].
    assert (z' = (if is_correct q c then z + 1 else z - 1)
                 + n_correct (drop (S k) qs) choices
                 - n_incorrect (drop (S k) qs) choices) as Hz'.
    { subst z'. rewrite (drop_S qs q k Hq). simpl. destruct (is_correct q c); lia. }
    change s' with
      (mainloop (answers_events choices)
         (dispatch (dispatch s (ClickAlternative c)) ClickNext)).
    destruct (Nat.lt_ge_cases (S k) (length qs)) as [Hlt|Hge].
    + specialize (IH qs (S k) _ _ (Hmore Hlt) Hall Hc ltac:(lia)).
      simpl in IH. rewrite <- Hz' in IH.
      replace (k + S (length choices))%nat with (S k + length choices)%nat by lia.
      destruct IH as (H1 & H2 & H3 & H4).
      split; [exact H1|]. split; [exact H2|]. split.
      * intros Hlt'. apply H3. lia.
      * intros Heq _. destruct choices as [|c' choices']; [simpl in Heq; lia|].
        apply H4; [exact Heq | discriminate].
    + assert (S k = length qs) as Hend by lia.
      destruct choices; [|simpl in Hlen; lia].
      rewrite n_correct_nil, n_incorrect_nil in Hz'.
      destruct (Hlast Hend) as (Hr & Hsc & Ht & Hd).
      simpl. rewrite Hz'. replace ((if is_correct q c then z + 1 else z - 1) + 0 - 0)
        with (if is_correct q c then z + 1 else z - 1) by lia.
      split; [exact Hsc|]. split; [exact Ht|]. split.
      * intros Hlt'. simpl in Hlt'. lia.
      * intros _ _. split; [exact Hr | exact Hd].
Qed.

Lemma init_session (q : json) (rest : list json) :
  playable q = true ->
  let r := __init__ (Decoded (JList (q :: rest))) fresh in
  snd r = Return tt /\ in_session (q :: rest) 0 0 (fst r).
Proof.
  intros Hp. open_playable q Hp d p alts c Hd1 Hd2 Hd3 Hlen Hc0 Hc1.
  destruct (init_displayable d rest p alts Hd1 Hd2 Hlen)
    as (Hret & Hr & Hd & Hqs & Hz & Hi & Ht & Ha).
  split; [exact Hret|]. repeat split; assumption.
Qed.

Lemma answers_events_last (choices : list nat) (c : nat) :
  removelast (answers_events (choices ++ [c])) =
    (answers_events choices ++ [ClickAlternative c])%list.
Proof.
  unfold answers_events. rewrite flat_map_app. simpl.
  change [ClickAlternative c; ClickNext]
    with ([ClickAlternative c] ++ [ClickNext])%list.
  rewrite !app_assoc. apply removelast_last.
Qed.

(** C3: for playable questions [qs] and answers [choices] (button
    numbers), given one after the other from the start of the program
    with Next between them, the score after these N answers, before as
    well as after the Next that follows the last one, is the number of
    correct answers minus the number of incorrect ones; the two
    numbers add up to N, so the score lies in [[-N, N]]. *)
Theorem score_is_correct_minus_incorrect (qs : list json) (choices : list nat) :
  forallb playable qs = true ->
  forallb (fun c => c <? 3)%nat choices = true ->
  (length choices <= length qs)%nat ->
  let s := main (Decoded (JList qs)) (answers_events choices) in
  let s_answered := main (Decoded (JList qs)) (removelast (answers_events choices)) in
  let N := Z.of_nat (length choices) in
  score s = Some (n_correct qs choices - n_incorrect qs choices) /\
  score s_answered = Some (n_correct qs choices - n_incorrect qs choices) /\
  n_correct qs choices + n_incorrect qs choices = N /\
  - N <= n_correct qs choices - n_incorrect qs choices <= N.
Proof.
  intros Hall Hc Hlen s s_answered N.
  destruct (tally_total qs choices Hlen) as (Hsum & H0 & H1).
  assert (score s = Some (n_correct qs choices - n_incorrect qs choices)) as Hs.
  { destruct qs as [|q rest].
    - destruct choices; [reflexivity | simpl in Hlen; lia].
    - pose proof Hall as Hall'. simpl in Hall'. apply andb_prop in Hall' as [Hp _].
      destruct (init_session q rest Hp) as [Hret Hs].
      subst s. unfold main.
      destruct (__init__ (Decoded (JList (q :: rest))) fresh) as [s0 o].
      simpl in Hret, Hs. subst o.
      destruct (play_all choices (q :: rest) 0 0 s0 Hs Hall Hc Hlen) as (Hz & _).
      rewrite Hz, drop_0. f_equal; lia. }
  split; [exact Hs|]. split; [|subst N; lia].
  rewrite <- Hs. subst s s_answered.
  destruct choices as [|c choices _] using rev_ind; [reflexivity|].
  rewrite answers_events_last. unfold answers_events at 2.
  rewrite flat_map_app. simpl.
  change [ClickAlternative c; ClickNext]
    with ([ClickAlternative c] ++ [ClickNext])%list.
  rewrite app_assoc. symmetry. apply main_next_score.
Qed.

Lemma score_is_correct_minus_incorrect_witness :
  score (main (Decoded (JList [q1; q2]))
           [ClickAlternative 1; ClickNext; ClickAlternative 2; ClickNext]) = Some 0 /\
  score (main (Decoded (JList [q1; q2]))
           [ClickAlternative 1; ClickNext; ClickAlternative 2]) = Some 0.
Proof.
  split.
  - refine (proj1 (score_is_correct_minus_incorrect [q1; q2] [1; 2]%nat _ _ _));
      [reflexivity | reflexivity | simpl; lia].
  - refine (proj1 (proj2 (score_is_correct_minus_incorrect [q1; q2] [1; 2]%nat _ _ _)));
      [reflexivity | reflexivity | simpl; lia].
Defined.

(** ** The total *)

Lemma reports_total_ignores_widgets (n : Z) : ignores_widgets (reports_total n).
Proof. intros s ql ab fl sl nb H. exact H. Qed.

Lemma reports_total_show_final_results (n : Z) :
  preserves (reports_total n) show_final_results.
Proof.
  intros [rd dl qq sc tq ci ql ab fl sl nb] [Ht Hd]. simpl in Ht, Hd. subst tq.
  destruct sc as [z|]; [|split; [reflexivity | exact Hd]].
  assert (Forall (final_dialog n) (dl ++ [showinfo "Quiz Over" (final_text z n)])) as Hd'.
  { apply Forall_app. split; [exact Hd|]. constructor; [|constructor].
    exists z. rewrite final_text_written_out. reflexivity. }
  destruct rd; (split; [reflexivity | exact Hd']).
Qed.

Lemma preserves_handler (P : QuizApp -> Prop) (e : event) :
  ignores_widgets P ->
  (forall x s, P s -> P (set_score x s)) ->
  (forall x s, P s -> P (set_current_question_index x s)) ->
  preserves P show_final_results ->
  preserves P (handler e).
Proof.
  intros HP Hs Hi Hf s H. destruct e as [i|]; simpl.
  - unfold click_alternative. destruct (alternative_buttons s) as [btns|]; [|exact H].
    destruct (btns !! i) as [b|]; [|exact H]. destruct (b_state b); [|exact H].
    apply preserves_check_answer; assumption.
  - unfold click_next. destruct (next_button s) as [b|]; [|exact H].
    destruct (b_state b); [|exact H].
    apply preserves_next_question; assumption.
Qed.

Lemma preserves_mainloop (P : QuizApp -> Prop) (events : list event) (s : QuizApp) :
  (forall e, preserves P (handler e)) -> P s -> P (mainloop events s).
Proof.
  intros Hh. revert s. induction events as [|e events IH]; intros s H; [exact H|].
  unfold mainloop in *. simpl. apply IH. unfold dispatch.
  destruct (root_destroyed s); [exact H | apply Hh, H].
Qed.

Lemma reports_total_handler (n : Z) (e : event) : preserves (reports_total n) (handler e).
Proof.
  apply preserves_handler.
  - apply reports_total_ignores_widgets.
  - intros x [] H. exact H.
  - intros x [] H. exact H.
  - apply reports_total_show_final_results.
Qed.

Lemma reports_total_init (qs : list json) :
  reports_total (Z.of_nat (length qs)) (fst (__init__ (Decoded (JList qs)) fresh)).
Proof.
  unfold __init__.
  do 7 (erewrite bind_Return by reflexivity).
  apply (preserves_apply (reports_total (Z.of_nat (length qs)))).
  - apply preserves_bind; [|intros _; apply preserves_load_question,
                                        reports_total_ignores_widgets].
    unfold setup_widgets. preserve; intros [] H; exact H.
  - split; [reflexivity | constructor].
Qed.

Lemma total_questions_kept (v : option Z) :
  ignores_widgets (fun s => total_questions s = v) /\
  (forall x s, total_questions s = v -> total_questions (set_score x s) = v) /\
  (forall x s, total_questions s = v ->
               total_questions (set_current_question_index x s) = v) /\
  preserves (fun s => total_questions s = v) show_final_results.
Proof.
  split; [intros s ql ab fl sl nb H; exact H|].
  split; [intros x [] H; exact H|].
  split; [intros x [] H; exact H|].
  apply preserves_show_final_results; intros x [] H; exact H.
Qed.

(** C9: whatever the list [qs] loaded and whatever the user does, the
    attribute [total_questions] is the number of records loaded and
    every result dialog reports that total: its text reads "Your
    final score is ... out of" that number; neither [check_answer]
    nor [next_question] (nor what they call) changes the attribute;
    and when every question of a playable list has been answered, the
    result dialog is shown, with the score out of that total and the
    message of the tier. *)
Theorem total_is_number_loaded :
  (forall (qs : list json) (events : list event),
     let s := main (Decoded (JList qs)) events in
     total_questions s = Some (Z.of_nat (length qs)) /\
     Forall (final_dialog (Z.of_nat (length qs))) (dialogs s)) /\
  (forall (s : QuizApp) (u : Z),
     total_questions (fst (check_answer u s)) = total_questions s) /\
  (forall s : QuizApp,
     total_questions (fst (next_question s)) = total_questions s) /\
  (forall (qs : list json) (choices : list nat),
     qs <> [] ->
     forallb playable qs = true ->
     forallb (fun c => c <? 3)%nat choices = true ->
     length choices = length qs ->
     dialogs (main (Decoded (JList qs)) (answers_events choices)) =
       [showinfo "Quiz Over"
          ("Quiz Completed!" ++ nl ++ nl ++ "Your final score is " ++
           py_str_int (n_correct qs choices - n_incorrect qs choices) ++
           " out of " ++ py_str_int (Z.of_nat (length qs)) ++ "." ++ nl ++ nl ++
           tier_message
             (spec_tier (n_correct qs choices - n_incorrect qs choices)
                (Z.of_nat (length qs))))]).
Proof.
  split; [|split; [|split]].
  - intros qs events s. subst s. unfold main.
    pose proof (reports_total_init qs) as H0.
    destruct (__init__ (Decoded (JList qs)) fresh) as [s0 [[]|e]]; simpl in H0.
    + apply (preserves_mainloop (reports_total (Z.of_nat (length qs)))); [|exact H0].
      apply reports_total_handler.
    + exact H0.
  - intros s u. destruct (total_questions_kept (total_questions s)) as (H1 & H2 & _).
    apply (preserves_check_answer _ u H1 H2 s). reflexivity.
  - intros s. destruct (total_questions_kept (total_questions s)) as (H1 & _ & H3 & H4).
    apply (preserves_next_question _ H1 H3 H4 s). reflexivity.
  - intros qs choices Hne Hall Hc Hlen.
    destruct qs as [|q rest]; [contradiction|].
    pose proof Hall as Hall'. simpl in Hall'. apply andb_prop in Hall' as [Hp _].
    destruct (init_session q rest Hp) as [Hret Hs].
    unfold main.
    destruct (__init__ (Decoded (JList (q :: rest))) fresh) as [s0 o].
    simpl in Hret, Hs. subst o.
    destruct (play_all choices (q :: rest) 0 0 s0 Hs Hall Hc ltac:(lia))
      as (_ & _ & _ & Hend).
    destruct choices as [|c choices]; [simpl in Hlen; lia|].
    destruct (Hend ltac:(simpl in *; lia) ltac:(discriminate)) as [_ Hd].
    rewrite Hd, drop_0, Z.add_0_l, final_text_written_out. reflexivity.
Qed.

Lemma total_is_number_loaded_witness :
  dialogs (main (Decoded (JList [q1; q2]))
             [ClickAlternative 1; ClickNext; ClickAlternative 2; ClickNext]) =
    [showinfo "Quiz Over"
       ("Quiz Completed!" ++ nl ++ nl ++ "Your final score is 0 out of 2." ++
        nl ++ nl ++ "You've failed the quiz. Better luck next time!")].
Proof.
  refine (proj2 (proj2 (proj2 total_is_number_loaded)) [q1; q2] [1; 2]%nat _ _ _ _);
    [discriminate | reflexivity | reflexivity | reflexivity].
Defined.

(** * Further properties of the program *)

(** ** Properties kept from the start of the program on *)

Lemma preserves_setup_widgets (P : QuizApp -> Prop) :
  ignores_widgets P -> preserves P setup_widgets.
Proof.
  intros HP. unfold setup_widgets. preserve;
    intros s H; destruct s; exact (HP _ _ _ _ _ _ H).
Qed.

(** What holds once [quiz_questions] and [score] are assigned, and is
    kept by the assignments that follow, holds when [__init__] ends. *)
Lemma init_keeps (P : QuizApp -> Prop) (v : json) :
  ignores_widgets P ->
  (forall x s, P s -> P (set_total_questions x s)) ->
  (forall x s, P s -> P (set_current_question_index x s)) ->
  P (set_score 0 (set_quiz_questions v fresh)) ->
  P (fst (__init__ (Decoded v) fresh)).
Proof.
  intros HP Ht Hi H0. unfold __init__.
  do 3 (erewrite bind_Return by reflexivity).
  apply (preserves_apply P); [|exact H0].
  preserve;
    try (intros s H; first [apply Ht, H | apply Hi, H]).
  - apply preserves_setup_widgets, HP.
  - apply preserves_load_question, HP.
Qed.

(** What the event loop keeps. *)
Lemma main_keeps (P : QuizApp -> Prop) (v : json) (events : list event) :
  ignores_widgets P ->
  (forall x s, P s -> P (set_score x s)) ->
  (forall x s, P s -> P (set_total_questions x s)) ->
  (forall x s, P s -> P (set_current_question_index x s)) ->
  preserves P show_final_results ->
  P (set_score 0 (set_quiz_questions v fresh)) ->
  P (main (Decoded v) events).
Proof.
  intros HP Hs Ht Hi Hf H0. unfold main.
  pose proof (init_keeps P v HP Ht Hi H0) as H.
  destruct (__init__ (Decoded v) fresh) as [s [[]|e]]; simpl in H; [|exact H].
  apply (preserves_mainloop P); [|exact H].
  intros e. apply preserves_handler; assumption.
Qed.

(** X1: whatever object the file decodes to and whatever the user
    does, [quiz_questions] is that object from the moment it is
    assigned: no method assigns it again. *)
Theorem questions_never_change (v : json) (events : list event) :
  quiz_questions (main (Decoded v) events) = Some v.
Proof.
  apply (main_keeps (fun s => quiz_questions s = Some v)).
  - intros s ql ab fl sl nb H. exact H.
  - intros x [] H. exact H.
  - intros x [] H. exact H.
  - intros x [] H. exact H.
  - apply preserves_show_final_results; intros x [] H; exact H.
  - reflexivity.
Qed.

(** ** The score moves by one, on answers only *)

Lemma bind_split {A B : Type} (Q : QuizApp -> Prop) (m : M A) (k : A -> M B)
    (s : QuizApp) :
  (forall s1 e, m s = (s1, Raise e) -> Q s1) ->
  (forall s1 a, m s = (s1, Return a) -> Q (fst (k a s1))) ->
  Q (fst (bind m k s)).
Proof.
  intros Hraise Hret. unfold bind. destruct (m s) as [s1 [a|e]] eqn:E.
  - apply (Hret s1 a). reflexivity.
  - apply (Hraise s1 e). reflexivity.
Qed.

Lemma score_kept_until_compared (s : QuizApp) (f : Button -> Button) :
  score (fst (config_all_buttons f s)) = score s /\
  score (fst (current_question_data s)) = score s.
Proof.
  split.
  - apply (preserves_apply (fun s' => score s' = score s)); [|reflexivity].
    preserve. intros [] l n H _. exact H.
  - apply (preserves_apply (fun s' => score s' = score s)); [|reflexivity].
    preserve.
Qed.

(** [check_answer], however it ends, leaves the score as it was or
    one above or one below. *)
Lemma check_answer_score_step (s : QuizApp) (u : Z) :
  let s' := fst (check_answer u s) in
  score s' = score s \/
  exists z, score s = Some z /\ (score s' = Some (z + 1) \/ score s' = Some (z - 1)).
Proof.
  intros s'. subst s'. unfold check_answer.
  apply bind_split; intros s1 x E1;
    pose proof (proj1 (score_kept_until_compared s (with_state disabled))) as H1;
    rewrite E1 in H1; simpl in H1; [left; exact H1|].
  apply bind_split; intros s2 qd E2;
    pose proof (proj2 (score_kept_until_compared s1 (with_state disabled))) as H2;
    rewrite E2 in H2; simpl in H2; [left; congruence|].
  apply bind_split; intros s3 c E3; unfold lift in E3; injection E3 as <- _;
    [left; congruence|].
  destruct (py_eq_int u c).
  - rewrite bind_assoc. apply bind_split; intros s4 z E4; unfold getattr in E4;
      destruct (score s2) as [z0|] eqn:Hz; simplify_eq; [left; congruence|].
    rewrite bind_assoc. erewrite bind_Return by reflexivity.
    right. exists z. split; [congruence|]. left.
    apply (preserves_apply (fun s' => score s' = Some (z + 1)));
      [|destruct s4; reflexivity].
    preserve; try (intros w [] H; exact H); intros [] l n H _; exact H.
  - rewrite bind_assoc. apply bind_split; intros s4 z E4; unfold getattr in E4;
      destruct (score s2) as [z0|] eqn:Hz; simplify_eq; [left; congruence|].
    rewrite bind_assoc. erewrite bind_Return by reflexivity.
    right. exists z. split; [congruence|]. right.
    apply (preserves_apply (fun s' => score s' = Some (z - 1)));
      [|destruct s4; reflexivity].
    preserve; try (intros w [] H; exact H); intros [] l n H _; exact H.
Qed.

Lemma dispatch_score_within (s : QuizApp) (e : event) (n : Z) :
  score_within n s ->
  score_within (n + answer_clicks [e]) (dispatch s e).
Proof.
  intros H. destruct e as [j|]; simpl answer_clicks.
  - assert (score_within (n + 1) s) as H'
      by (unfold score_within in *; destruct (score s); [lia | exact I]).
    replace (n + (1 + 0)) with (n + 1) by lia.
    unfold dispatch. destruct (root_destroyed s); [exact H'|]. simpl.
    unfold click_alternative. destruct (alternative_buttons s) as [btns|]; [|exact H'].
    destruct (btns !! j) as [b|]; [|exact H']. destruct (b_state b); [|exact H'].
    destruct (check_answer_score_step s (Z.of_nat j)) as [E|(z & Hz & [E|E])];
      unfold score_within in *; rewrite E; [exact H' | |]; rewrite Hz in H; lia.
  - replace (n + 0) with n by lia. unfold score_within.
    rewrite dispatch_next_score. exact H.
Qed.

Lemma answer_clicks_app (l1 l2 : list event) :
  answer_clicks (l1 ++ l2) = answer_clicks l1 + answer_clicks l2.
Proof.
  induction l1 as [|[j|] l1 IH]; simpl; rewrite ?IH; lia.
Qed.

Lemma answer_clicks_nonneg (events : list event) : 0 <= answer_clicks events.
Proof. induction events as [|[j|] events IH]; simpl; lia. Qed.

Lemma mainloop_score_within (events : list event) (s : QuizApp) (n : Z) :
  score_within n s -> score_within (n + answer_clicks events) (mainloop events s).
Proof.
  revert s n. induction events as [|e events IH]; intros s n H.
  - simpl. replace (n + 0) with n by lia. exact H.
  - change (e :: events) with ([e] ++ events)%list.
    rewrite answer_clicks_app, Z.add_assoc.
    unfold mainloop. simpl. apply IH, dispatch_score_within, H.
Qed.

(** X2: whatever the file holds and whatever the user clicks, every
    click on an answer button moves the score by at most one and
    nothing else moves it: after any events the score, when assigned,
    is at most the number of answer clicks in absolute value. *)
Theorem score_bounded_by_answer_clicks (src : source) (events : list event) (z : Z) :
  score (main src events) = Some z ->
  - answer_clicks events <= z <= answer_clicks events.
Proof.
  intros Hz.
  assert (score_within (answer_clicks events) (main src events)) as H;
    [|unfold score_within in H; rewrite Hz in H; exact H].
  clear Hz. unfold main.
  assert (score_within 0 (fst (__init__ src fresh))) as H0.
  { destruct src as [| |v]; [exact I | exact I |].
    assert (score (fst (__init__ (Decoded v) fresh)) = Some 0) as E.
    { apply (init_keeps (fun s => score s = Some 0)).
      - intros s ql ab fl sl nb H. exact H.
      - intros x [] H. exact H.
      - intros x [] H. exact H.
      - reflexivity. }
    unfold score_within. rewrite E. lia. }
  pose proof (answer_clicks_nonneg events) as Hn.
  destruct (__init__ src fresh) as [s [[]|e]]; simpl in H0.
  - apply (mainloop_score_within events s 0 H0).
  - unfold score_within in *. destruct (score s); [lia | exact I].
Qed.

Lemma score_bounded_by_answer_clicks_witness :
  let events := [ClickAlternative 1; ClickNext; ClickAlternative 2; ClickNext]%nat in
  score (main (Decoded (JList [q1; q2])) events) = Some 0 /\
  - answer_clicks events <= 0 <= answer_clicks events.
Proof.
  split; [reflexivity|].
  apply (score_bounded_by_answer_clicks (Decoded (JList [q1; q2]))
           [ClickAlternative 1; ClickNext; ClickAlternative 2; ClickNext]%nat 0).
  reflexivity.
Defined.

(** ** When the program starts *)

Ltac evaluate_init :=
  match goal with
  | |- context [__init__ ?a ?s] => evaluate (__init__ a s)
  end.

Lemma py_getitem_dict_missing (d : list (string * json)) (k : string) :
  dict_get k d = None -> py_getitem (JDict d) (JStr k) = Raise KeyError.
Proof. intros H. simpl. now rewrite H. Qed.

(** [__init__] returns normally only on a list whose first record can
    be shown; the session is then set up. *)
Lemma init_returns_list (v : json) :
  snd (__init__ (Decoded v) fresh) = Return tt ->
  exists q rest,
    v = JList (q :: rest) /\ displayable q = true /\
    running (q :: rest) (fst (__init__ (Decoded v) fresh)) /\
    root_destroyed (fst (__init__ (Decoded v) fresh)) = false /\
    current_question_index (fst (__init__ (Decoded v) fresh)) = Some 0 /\
    score (fst (__init__ (Decoded v) fresh)) = Some 0 /\
    awaiting_answer (fst (__init__ (Decoded v) fresh)) = true /\
    label_synced (fst (__init__ (Decoded v) fresh)).
Proof.
  unfold fresh.
  destruct v as [| b | z | f | [|a s] | [|q rest] | d];
    try (evaluate_init; intros H; discriminate H).
  destruct q as [| b | z | f | s | l | d];
    try (evaluate_init; intros H; discriminate H).
  destruct (dict_get "question" d) as [p|] eqn:Hd1;
    [pose proof (py_getitem_dict d _ _ Hd1) as H1
    |pose proof (py_getitem_dict_missing d _ Hd1) as H1;
     evaluate_init; intros H; discriminate H].
  destruct (dict_get "alternatives" d) as [alts|] eqn:Hd2;
    [pose proof (py_getitem_dict d _ _ Hd2) as H2
    |pose proof (py_getitem_dict_missing d _ Hd2) as H2;
     evaluate_init; intros H; discriminate H].
  destruct (py_iter alts) as [items|e] eqn:Hit;
    [|evaluate_init; intros H; discriminate H].
  destruct items as [|a0 [|a1 [|a2 [|a3 items]]]];
    evaluate_init; intros H; try discriminate H;
    (exists (JDict d), rest; split; [reflexivity|];
     split; [unfold displayable; rewrite Hd1, Hd2, Hit; reflexivity|];
     split; [|repeat split];
     exists 0, 0; repeat split; left; repeat split; simpl length; lia).
Qed.

Lemma init_displayable_returns (q : json) (rest : list json) :
  displayable q = true ->
  snd (__init__ (Decoded (JList (q :: rest))) fresh) = Return tt.
Proof.
  unfold displayable. intros H.
  destruct q as [| | | | | |d]; try discriminate H.
  destruct (dict_get "question" d) as [p|] eqn:Hd1; [|discriminate H].
  destruct (dict_get "alternatives" d) as [alts|] eqn:Hd2; [|discriminate H].
  destruct (py_iter alts) as [items|e] eqn:Hit; [|discriminate H].
  apply Nat.leb_le in H.
  pose proof (py_getitem_dict d _ _ Hd1) as H1.
  pose proof (py_getitem_dict d _ _ Hd2) as H2.
  clear Hd1 Hd2. unfold fresh.
  destruct items as [|a0 [|a1 [|a2 [|a3 items]]]]; simpl in H; try lia; clear H;
    evaluate_init; reflexivity.
Qed.

(** X3: [__init__] returns normally exactly when the file decodes to
    a list whose first element is a dict with a [question] and with
    [alternatives] that can be gone through and are at most three;
    then the first question waits for its answer with score 0 and
    index 0.  On every other decoded object (a number, a string, a
    dict, null, the empty list, a first record that lacks a key or has
    more than three alternatives) an exception leaves [__init__] and
    the program handles no event. *)
Theorem init_returns_iff (v : json) :
  (snd (__init__ (Decoded v) fresh) = Return tt <->
     exists q rest, v = JList (q :: rest) /\ displayable q = true) /\
  (snd (__init__ (Decoded v) fresh) = Return tt ->
     awaiting_answer (started_on v) = true /\
     score (started_on v) = Some 0 /\ current_question_index (started_on v) = Some 0) /\
  (snd (__init__ (Decoded v) fresh) <> Return tt ->
     forall events, main (Decoded v) events = started_on v).
Proof.
  unfold started_on. split; [split|split].
  - intros H. destruct (init_returns_list v H) as (q & rest & Hv & Hq & _).
    exists q, rest. split; assumption.
  - intros (q & rest & -> & Hq). apply init_displayable_returns, Hq.
  - intros H.
    destruct (init_returns_list v H) as (q & rest & _ & _ & _ & _ & Hi & Hz & Ha & _).
    repeat split; assumption.
  - intros H events. unfold main.
    destruct (__init__ (Decoded v) fresh) as [s [[]|e]]; [|reflexivity].
    contradiction H. reflexivity.
Qed.

Lemma init_returns_iff_witness :
  (snd (__init__ (Decoded (JList [q1])) fresh) = Return tt /\
   awaiting_answer (started_on (JList [q1])) = true /\
   score (started_on (JList [q1])) = Some 0) /\
  (forall events,
     main (Decoded (JList [])) events = started_on (JList [])).
Proof.
  split.
  - destruct (init_returns_iff (JList [q1])) as ([_ Hback] & Hthen & _).
    assert (snd (__init__ (Decoded (JList [q1])) fresh) = Return tt) as Hret
      by (apply Hback; exists q1, []; split; reflexivity).
    destruct (Hthen Hret) as (Ha & Hz & _).
    split; [exact Hret|]. split; [exact Ha | exact Hz].
  - destruct (init_returns_iff (JList [])) as (_ & _ & Helse).
    apply Helse. vm_compute. discriminate.
Defined.

(** ** The index and the dialogs while the program runs *)

Lemma check_answer_running (qs : list json) (s : QuizApp) (u : Z) :
  root_destroyed s = false -> running qs s -> running qs (fst (check_answer u s)).
Proof.
  intros Hr (i & z & Hq & Hi & Ht & Hz & Hcase).
  destruct Hcase as [Hc|(Hr' & _)]; [|congruence].
  assert (exists z', score (fst (check_answer u s)) = Some z') as [z' Hz'].
  { destruct (check_answer_score_step s u) as [E|(z0 & _ & [E|E])];
      rewrite E; eauto. }
  pose proof (preserves_check_answer
                (fun s' => quiz_questions s' = quiz_questions s /\
                           current_question_index s' = current_question_index s /\
                           total_questions s' = total_questions s /\
                           root_destroyed s' = root_destroyed s /\
                           dialogs s' = dialogs s) u) as Hk.
  destruct (Hk ltac:(intros s0 ql ab fl sl nb H; exact H)
               ltac:(intros x [] H; exact H) s ltac:(repeat split))
    as (Eq & Ei & Et & Er & Ed).
  exists i, z'. rewrite Eq, Ei, Et, Er, Ed.
  split; [exact Hq|]. split; [exact Hi|]. split; [exact Ht|]. split; [exact Hz'|].
  left. exact Hc.
Qed.

Ltac evaluate_final :=
  match goal with
  | |- context [show_final_results ?s] => evaluate (show_final_results s)
  end.

Lemma next_question_running (qs : list json) (s : QuizApp) :
  root_destroyed s = false -> running qs s -> running qs (fst (next_question s)).
Proof.
  intros Hr (i & z & Hq & Hi & Ht & Hz & Hcase).
  destruct Hcase as [(_ & Hd & Hrange)|(Hr' & _)]; [|congruence].
  destruct s as [rd dl qq sc tq ci ql ab fl sl nb]. simpl in *. subst.
  unfold next_question. do 4 (erewrite bind_Return by reflexivity).
  destruct (Z.ltb_spec (i + 1) (Z.of_nat (length qs))) as [Hlt|Hge].
  - destruct (load_question_session
                (set_current_question_index (i + 1)
                   (mkQuizApp false [] (Some (JList qs)) (Some z)
                      (Some (Z.of_nat (length qs))) (Some i) ql ab fl sl nb)))
      as (Er & Ed & Eq & Es & Et & Ei).
    exists (i + 1), z. rewrite Er, Ed, Eq, Es, Et, Ei. simpl.
    repeat split. left. repeat split; lia.
  - evaluate_final. exists (i + 1), z. simpl. repeat split.
    right. repeat split. lia.
Qed.

Lemma dispatch_running (qs : list json) (s : QuizApp) (e : event) :
  running qs s -> running qs (dispatch s e).
Proof.
  intros Hrun. unfold dispatch. destruct (root_destroyed s) eqn:Hr; [exact Hrun|].
  destruct e as [j|]; simpl.
  - unfold click_alternative.
    destruct (alternative_buttons s) as [btns|]; [|exact Hrun].
    destruct (btns !! j) as [b|]; [|exact Hrun].
    destruct (b_state b); [|exact Hrun].
    apply check_answer_running; assumption.
  - unfold click_next. destruct (next_button s) as [b|]; [|exact Hrun].
    destruct (b_state b); [|exact Hrun].
    apply next_question_running; assumption.
Qed.

(** When [__init__] raises, the window stays and no dialog is shown. *)
Lemma init_shows_nothing (v : json) :
  root_destroyed (started_on v) = false /\ dialogs (started_on v) = [].
Proof.
  apply (init_keeps (fun s => root_destroyed s = false /\ dialogs s = [])).
  - intros s ql ab fl sl nb H. exact H.
  - intros x [] H. exact H.
  - intros x [] H. exact H.
  - split; reflexivity.
Qed.

(** A destroyed window handles nothing, a close request included. *)
Lemma mainloop_window_destroyed (wevents : list window_event) (s : QuizApp) :
  root_destroyed s = true -> mainloop_window wevents s = s.
Proof.
  intros H. induction wevents as [|w wevents IH]; [reflexivity|].
  unfold mainloop_window in *. simpl.
  replace (dispatch_window s w) with s; [exact IH|].
  destruct w as [e|]; simpl.
  - unfold dispatch. now rewrite H.
  - unfold destroy, bind, tk_call. now rewrite H.
Qed.

(** Without a close request the loop is the loop of the clicks. *)
Lemma mainloop_window_clicks (events : list event) (s : QuizApp) :
  mainloop_window (map Click events) s = mainloop events s.
Proof.
  revert s. induction events as [|e events IH]; intros s; [reflexivity|].
  unfold mainloop_window, mainloop in *. simpl. apply IH.
Qed.

Lemma main_window_clicks (src : source) (events : list event) :
  main_window src (map Click events) = main src events.
Proof.
  unfold main_window, main.
  destruct (__init__ src fresh) as [s [[]|e]]; [apply mainloop_window_clicks | reflexivity].
Qed.

Lemma close_running (qs : list json) (s : QuizApp) :
  running qs s -> root_destroyed s = false -> closed_early qs (fst (destroy s)).
Proof.
  intros (i & z & Hq & Hi & Ht & Hz & Hcase) Hr.
  destruct Hcase as [(_ & Hd & Hrange)|(Hr' & _)]; [|congruence].
  unfold destroy, bind, tk_call, modify. rewrite Hr. destruct s. simpl in *.
  exists i, z. repeat split; try assumption; lia.
Qed.

Lemma mainloop_window_running (qs : list json) (wevents : list window_event) :
  forall s : QuizApp,
    running qs s ->
    running qs (mainloop_window wevents s) \/
    (closed_early qs (mainloop_window wevents s) /\ In CloseWindow wevents).
Proof.
  induction wevents as [|w wevents IH]; intros s H; [left; exact H|].
  unfold mainloop_window in *. simpl fold_left.
  destruct w as [e|].
  - destruct (IH (dispatch s e) (dispatch_running qs s e H)) as [Hrun|[Hc Hin]].
    + left. exact Hrun.
    + right. split; [exact Hc | right; exact Hin].
  - simpl dispatch_window. destruct (root_destroyed s) eqn:Hr.
    + replace (fst (destroy s)) with s
        by (unfold destroy, bind, tk_call; now rewrite Hr).
      destruct (IH s H) as [Hrun|[Hc Hin]].
      * left. exact Hrun.
      * right. split; [exact Hc | right; exact Hin].
    + right. pose proof (close_running qs s H Hr) as Hc.
      assert (root_destroyed (fst (destroy s)) = true) as Hr'
        by (destruct Hc as (i & z & _ & _ & _ & _ & Hd & _); exact Hd).
      pose proof (mainloop_window_destroyed wevents _ Hr') as E.
      unfold mainloop_window in E. rewrite E.
      split; [exact Hc | left; reflexivity].
Qed.

(** The program after a normal start is running or was closed by the
    user, whatever the events. *)
Lemma main_window_running (v : json) (wevents : list window_event) :
  snd (__init__ (Decoded v) fresh) = Return tt ->
  exists q rest,
    v = JList (q :: rest) /\
    (running (q :: rest) (main_window (Decoded v) wevents) \/
     (closed_early (q :: rest) (main_window (Decoded v) wevents) /\
      In CloseWindow wevents)).
Proof.
  intros H. destruct (init_returns_list v H) as (q & rest & Hv & _ & Hrun & _).
  exists q, rest. split; [exact Hv|]. unfold main_window.
  destruct (__init__ (Decoded v) fresh) as [s [[]|e]]; [|discriminate H].
  apply mainloop_window_running, Hrun.
Qed.

(** X4: whatever the file holds, whatever the user clicks and whenever
    the user closes the window, the program shows at most one dialog,
    and once it has shown one the window is destroyed: the error
    dialog when the file is missing or is not JSON, the result dialog
    when Next was clicked on the last question, reading the final
    score out of the total and the message of its tier.  Until then
    no dialog is shown, and the window is destroyed without a dialog
    only when the user has closed it. *)
Theorem one_dialog_then_destroyed (src : source) (wevents : list window_event) :
  let s := main_window src wevents in
  (dialogs s = [] /\ (root_destroyed s = true -> In CloseWindow wevents)) \/
  (root_destroyed s = true /\
   match src with
   | NotFound => dialogs s = [showerror "Error" "quiz_questions.json not found!"]
   | Undecodable =>
       dialogs s = [showerror "Error" "Invalid format in quiz_questions.json!"]
   | Decoded _ =>
       exists z n, score s = Some z /\ total_questions s = Some n /\
                   current_question_index s = Some n /\
                   dialogs s =
                     [showinfo "Quiz Over"
                        ("Quiz Completed!" ++ nl ++ nl ++ "Your final score is " ++
                         py_str_int z ++ " out of " ++ py_str_int n ++ "." ++
                         nl ++ nl ++ tier_message (spec_tier z n))]
   end).
Proof.
  intros s. subst s. destruct src as [| |v].
  - right. unfold main_window.
    change (__init__ NotFound fresh) with
      (mkQuizApp true [showerror "Error" "quiz_questions.json not found!"]
         None None None None None None None None None, @Return unit tt).
    cbv beta iota. rewrite mainloop_window_destroyed by reflexivity. split; reflexivity.
  - right. unfold main_window.
    change (__init__ Undecodable fresh) with
      (mkQuizApp true [showerror "Error" "Invalid format in quiz_questions.json!"]
         None None None None None None None None None, @Return unit tt).
    cbv beta iota. rewrite mainloop_window_destroyed by reflexivity. split; reflexivity.
  - destruct (snd (__init__ (Decoded v) fresh)) as [[]|e] eqn:Hinit.
    + destruct (main_window_running v wevents Hinit)
        as (q & rest & _ & [(i & z & _ & Hi & Ht & Hz & Hcase)|[Hc Hin]]).
      * destruct Hcase as [(Hr & Hd & _)|(Hr & Hd & Hn)].
        -- left. split; [exact Hd|]. rewrite Hr. discriminate.
        -- right. split; [exact Hr|]. exists z, (Z.of_nat (length (q :: rest))).
           subst i. rewrite final_text_written_out in Hd. repeat split; assumption.
      * left. destruct Hc as (i & z & _ & _ & _ & _ & _ & Hd & _).
        split; [exact Hd | intros _; exact Hin].
    + left. pose proof (init_shows_nothing v) as [Hr Hd]. unfold started_on in Hr, Hd.
      unfold main_window. destruct (__init__ (Decoded v) fresh) as [s [[]|e']];
        [discriminate Hinit|].
      simpl in Hr, Hd. split; [exact Hd|]. rewrite Hr. discriminate.
Qed.

Lemma one_dialog_then_destroyed_witness :
  let s := main_window (Decoded (JList [q1; q2])) [Click (ClickAlternative 1); CloseWindow] in
  root_destroyed s = true /\ dialogs s = [] /\
  In CloseWindow [Click (ClickAlternative 1); CloseWindow].
Proof.
  cbv zeta.
  assert (root_destroyed
            (main_window (Decoded (JList [q1; q2]))
               [Click (ClickAlternative 1); CloseWindow]) = true) as Hr
    by (vm_compute; reflexivity).
  destruct (one_dialog_then_destroyed (Decoded (JList [q1; q2]))
              [Click (ClickAlternative 1); CloseWindow]) as [[Hd Hin]|[_ (z & n & _ & _ & _ & Hd)]].
  - split; [exact Hr|]. split; [exact Hd | exact (Hin Hr)].
  - vm_compute in Hd. discriminate Hd.
Defined.

(** X5: after a normal start on the list [qs], whatever the user
    clicks and whenever the user closes the window, the index stays
    within [0, len(qs)].  While it is below [len(qs)] it is the index
    of a record of the list, so a current question exists, and it is
    so while the window is open.  The index has reached [len(qs)]
    exactly when the result dialog has been shown; the window is then
    destroyed, and it is destroyed at a smaller index only when the
    user has closed it. *)
Theorem index_in_bounds (qs : list json) (wevents : list window_event) :
  snd (__init__ (Decoded (JList qs)) fresh) = Return tt ->
  let s := main_window (Decoded (JList qs)) wevents in
  exists i : Z,
    current_question_index s = Some i /\
    0 <= i <= Z.of_nat (length qs) /\
    (i < Z.of_nat (length qs) ->
       question_at s = qs !! Z.to_nat i /\ exists q, question_at s = Some q) /\
    (root_destroyed s = false -> i < Z.of_nat (length qs)) /\
    (i = Z.of_nat (length qs) <-> dialogs s <> []) /\
    (root_destroyed s = true -> i = Z.of_nat (length qs) \/ In CloseWindow wevents).
Proof.
  intros Hinit s. subst s.
  destruct (main_window_running _ wevents Hinit) as (q & rest & Hv & Hcases).
  injection Hv as ->.
  set (s := main_window (Decoded (JList (q :: rest))) wevents) in *.
  assert (forall i, current_question_index s = Some i ->
                    quiz_questions s = Some (JList (q :: rest)) ->
                    0 <= i < Z.of_nat (length (q :: rest)) ->
                    question_at s = (q :: rest) !! Z.to_nat i /\
                    exists q', question_at s = Some q') as Hat.
  { intros i Hi Hq Hrange.
    destruct (lookup_lt_is_Some_2 (q :: rest) (Z.to_nat i) ltac:(lia)) as [qi Hqi].
    assert (question_at s = Some qi) as E.
    { unfold question_at. rewrite Hq, Hi.
      replace i with (Z.of_nat (Z.to_nat i)) at 1 by lia.
      rewrite (py_getitem_list _ _ _ Hqi). reflexivity. }
    rewrite E, Hqi. split; [reflexivity | eauto]. }
  destruct Hcases as [(i & z & Hq & Hi & Ht & Hz & Hcase)|[(i & z & Hq & Hi & Ht & Hz & Hr & Hd & Hrange) Hin]].
  - exists i. split; [exact Hi|].
    destruct Hcase as [(Hr & Hd & Hrange)|(Hr & Hd & Hn)].
    + split; [lia|]. split; [intros _; apply Hat; assumption|].
      split; [intros _; lia|]. split.
      * rewrite Hd. split; [lia | intros H; contradiction H; reflexivity].
      * rewrite Hr. discriminate.
    + split; [lia|]. split; [lia|].
      split; [rewrite Hr; discriminate|]. split.
      * rewrite Hd. split; [discriminate | intros _; exact Hn].
      * intros _. left. exact Hn.
  - exists i. split; [exact Hi|]. split; [lia|].
    split; [intros _; apply Hat; assumption|].
    split; [intros _; lia|]. split.
    + rewrite Hd. split; [lia | intros H; contradiction H; reflexivity].
    + intros _. right. exact Hin.
Qed.

Lemma index_in_bounds_witness :
  exists i : Z,
    current_question_index
      (main_window (Decoded (JList [q1; q2]))
         [Click (ClickAlternative 1); Click ClickNext; CloseWindow]) = Some i /\
    0 <= i <= 2.
Proof.
  destruct (index_in_bounds [q1; q2]
              [Click (ClickAlternative 1); Click ClickNext; CloseWindow] eq_refl)
    as (i & Hi & Hrange & _).
  exists i. split; [exact Hi | exact Hrange].
Defined.

(** ** What is on the screen *)

(** X6: [load_question] on a record with a question and a list of
    alternatives leaves the feedback empty, the Next button disabled
    and the three answer buttons enabled in the base colour.  The
    question label shows the question, and button [j] shows
    alternative [j] when there is one; where the value is [null]
    ([None], which tkinter leaves out of the command) or where the
    list has no alternative [j], the widget keeps the text it had, so
    that of the question before.  This holds for a list of any
    length: with more than three alternatives the first three are
    shown before IndexError is raised. *)
Theorem load_question_display (s : QuizApp) (q p : json) (alts : list json) :
  widgets_ready s = true ->
  question_at s = Some q ->
  py_getitem q (JStr "question") = Return p ->
  py_getitem q (JStr "alternatives") = Return (JList alts) ->
  let s' := fst (load_question s) in
  awaiting_answer s' = true /\
  l_text <$> question_label s' =
    match p with
    | JNull => l_text <$> question_label s
    | _ => Some (Obj p)
    end /\
  l_text <$> feedback_label s' = Some (Str "") /\
  alternative_buttons s' = imap (shown alts) <$> alternative_buttons s.
Proof.
  intros Hr Hq Hp Ha s'. subst s'. open_state s Hr Hq.
  destruct alts as [|a0 [|a1 [|a2 [|a3 alts]]]];
    evaluate_call load_question;
    (split; [reflexivity|]); (split; [destruct p; reflexivity|]);
    (split; [reflexivity|]); reflexivity.
Qed.

Lemma load_question_display_witness :
  (let s' := fst (load_question (before_first_question [q_four])) in
   awaiting_answer s' = true /\
   b_text <$> default [] (alternative_buttons s') =
     [Obj (JStr "a"); Obj (JStr "b"); Obj (JStr "c")]) /\
  (let s' := fst (load_question
                    (set_current_question_index 1
                       (fst (check_answer 1 (started [q1; q_two])))))  in
   b_text <$> default [] (alternative_buttons s') =
     [Obj (JStr "a"); Obj (JStr "b"); Obj (JStr "c")]) /\
  (let s' := fst (load_question
                    (set_current_question_index 1
                       (fst (check_answer 1 (started [q1; q_null])))))  in
   l_text <$> question_label s' = Some (Obj (JStr "Q1")) /\
   b_text <$> default [] (alternative_buttons s') =
     [Obj (JStr "x"); Obj (JStr "b"); Obj (JStr "z")]).
Proof.
  split; [|split].
  - destruct (load_question_display (before_first_question [q_four]) q_four (JStr "Q")
                [JStr "a"; JStr "b"; JStr "c"; JStr "d"]
                eq_refl eq_refl eq_refl eq_refl) as (Ha & _ & _ & Hb).
    cbv zeta. split; [exact Ha|]. rewrite Hb. reflexivity.
  - destruct (load_question_display
                (set_current_question_index 1
                   (fst (check_answer 1 (started [q1; q_two]))))
                q_two (JStr "Q") [JStr "a"; JStr "b"]
                eq_refl eq_refl eq_refl eq_refl) as (_ & _ & _ & Hb).
    cbv zeta. rewrite Hb. reflexivity.
  - destruct (load_question_display
                (set_current_question_index 1
                   (fst (check_answer 1 (started [q1; q_null]))))
                q_null JNull [JStr "x"; JNull; JStr "z"]
                eq_refl eq_refl eq_refl eq_refl) as (_ & Hl & _ & Hb).
    cbv zeta. rewrite Hl, Hb. split; reflexivity.
Defined.

Ltac evaluate_answer' :=
  match goal with
  | |- context [check_answer ?a ?s] => evaluate (check_answer a s)
  end.

(** [check_answer] on a choice among the three buttons for a playable
    record: what it leaves on the screen. *)
Lemma check_answer_screen (s : QuizApp) (q : json) (alts : list json)
    (j c : nat) (z : Z) :
  widgets_ready s = true ->
  question_at s = Some q ->
  py_getitem q (JStr "alternatives") = Return (JList alts) ->
  py_getitem q (JStr "correct_answer") = Return (JInt (Z.of_nat c)) ->
  (c < length alts <= 3)%nat ->
  score s = Some z ->
  (j < 3)%nat ->
  let s' := fst (check_answer (Z.of_nat j) s) in
  feedback_label s' =
    (if (j =? c)%nat then Some (mkLabel (Str "Correct!") (Some "green"))
     else (fun a => mkLabel (FStr "Incorrect! The correct answer was: " a) (Some "red"))
            <$> alts !! c) /\
  alternative_buttons s' = imap (marked j c) <$> alternative_buttons s /\
  label_synced s' /\
  (b_state <$> next_button s') = Some normal.
Proof.
  intros Hr Hq Ha Hc Hlen Hz Hj s'. subst s'. open_state s Hr Hq.
  simpl in Hz. subst sc. unfold label_synced.
  destruct j as [|[|[|j]]]; try lia;
    destruct alts as [|a0 [|a1 [|a2 [|a3 alts]]]]; simpl in Hlen; try lia;
    destruct c as [|[|[|c]]]; try lia; clear Hlen Hj;
    evaluate_answer'; repeat split.
Qed.

(** X7: on a playable record, [check_answer] for button [j] shows
    "Correct!" in green and colours the button green when [j] is the
    correct index; otherwise it shows the text of the correct
    alternative in red, colours the chosen button red and the correct
    one light green.  In both cases the answer buttons are disabled,
    the score label shows the new score and the Next button is
    enabled. *)
Theorem check_answer_feedback (s : QuizApp) (q : json) (alts : list json)
    (j c : nat) (z : Z) :
  widgets_ready s = true ->
  question_at s = Some q ->
  py_getitem q (JStr "alternatives") = Return (JList alts) ->
  py_getitem q (JStr "correct_answer") = Return (JInt (Z.of_nat c)) ->
  (c < length alts <= 3)%nat ->
  score s = Some z ->
  (j < 3)%nat ->
  let s' := fst (check_answer (Z.of_nat j) s) in
  feedback_label s' =
    (if (j =? c)%nat then Some (mkLabel (Str "Correct!") (Some "green"))
     else (fun a => mkLabel (FStr "Incorrect! The correct answer was: " a) (Some "red"))
            <$> alts !! c) /\
  alternative_buttons s' = imap (marked j c) <$> alternative_buttons s /\
  label_synced s' /\
  (b_state <$> next_button s') = Some normal.
Proof. exact (check_answer_screen s q alts j c z). Qed.

Lemma check_answer_feedback_witness :
  feedback_label (fst (check_answer 2 (started [q1; q2]))) =
    Some (mkLabel (FStr "Incorrect! The correct answer was: " (JStr "b")) (Some "red")) /\
  b_bg <$> default [] (alternative_buttons (fst (check_answer 2 (started [q1; q2])))) =
    ["#4CAF50"; "lightgreen"; "red"].
Proof.
  destruct (check_answer_feedback (started [q1; q2]) q1 [JStr "a"; JStr "b"; JStr "c"]
              2 1 0 eq_refl eq_refl eq_refl eq_refl ltac:(simpl; lia) eq_refl
              ltac:(lia)) as (Hf & Hb & _).
  cbv zeta in Hf, Hb. change (Z.of_nat 2) with 2 in Hf, Hb.
  rewrite Hf, Hb. split; reflexivity.
Defined.

(** ** A wrong answer on a record with a bad index *)

Lemma py_getitem_out_of_range (alts : list json) (c : Z) :
  c < - Z.of_nat (length alts) \/ Z.of_nat (length alts) <= c ->
  py_getitem (JList alts) (JInt c) = Raise IndexError.
Proof.
  intros H. simpl. unfold list_getitem, norm_index.
  destruct (Z.leb_spec 0 c), (Z.ltb_spec c (Z.of_nat (length alts))),
    (Z.leb_spec (- Z.of_nat (length alts)) c), (Z.ltb_spec c 0);
    simpl; try reflexivity; lia.
Qed.

Lemma frozen_dispatch (s : QuizApp) (e : event) : frozen s -> dispatch s e = s.
Proof.
  intros [Hb Hn]. unfold dispatch. destruct (root_destroyed s); [reflexivity|].
  destruct e as [j|]; simpl.
  - rewrite (click_disabled s j Hb). reflexivity.
  - unfold click_next. destruct (next_button s) as [b|]; [|reflexivity].
    rewrite Hn. reflexivity.
Qed.

Lemma frozen_mainloop (s : QuizApp) (events : list event) :
  frozen s -> mainloop events s = s.
Proof.
  intros H. induction events as [|e events IH]; [reflexivity|].
  unfold mainloop in *. simpl. rewrite (frozen_dispatch s e H). exact IH.
Qed.

(** X8: when the [correct_answer] of the current record is an int
    that is not an index of its alternatives and the user clicks a
    button with another number, [check_answer] takes the point, then
    raises IndexError on [alternatives[correct_answer]] before it
    enables the Next button: the answer buttons and the Next button
    are all disabled and every later click is ignored, so the quiz can
    neither go on nor end. *)
Theorem wrong_answer_on_bad_index_freezes (s : QuizApp) (q : json) (alts : list json)
    (c z : Z) (j : nat) :
  awaiting_answer s = true ->
  question_at s = Some q ->
  py_getitem q (JStr "alternatives") = Return (JList alts) ->
  py_getitem q (JStr "correct_answer") = Return (JInt c) ->
  c < - Z.of_nat (length alts) \/ Z.of_nat (length alts) <= c ->
  score s = Some z ->
  (j < 3)%nat ->
  Z.of_nat j <> c ->
  let r := click_alternative j s in
  snd r = Raise IndexError /\
  score (fst r) = Some (z - 1) /\
  root_destroyed (fst r) = false /\
  frozen (fst r) /\
  forall events, mainloop events (fst r) = fst r.
Proof.
  intros Haw Hq Ha Hc Hout Hz Hj Hne r. subst r.
  destruct (awaiting_answer_inv s Haw) as [Hr Hclick]. rewrite (Hclick j Hj).
  clear Hclick.
  assert (snd (check_answer (Z.of_nat j) s) = Raise IndexError /\
          score (fst (check_answer (Z.of_nat j) s)) = Some (z - 1) /\
          root_destroyed (fst (check_answer (Z.of_nat j) s)) = false /\
          frozen (fst (check_answer (Z.of_nat j) s))) as (H1 & H2 & H3 & H4).
  { pose proof (py_getitem_out_of_range alts c Hout) as Hidx.
    apply Z.eqb_neq in Hne.
    unfold awaiting_answer in Haw. apply andb_prop in Haw as [_ Hb].
    open_state s Hr Hq. simpl in Hz, Hb. subst sc.
    apply andb_prop in Hb as [_ Hnb]. destruct nb as [nt [|] nbg]; [discriminate Hnb|].
    clear Hnb Hout.
    destruct j as [|[|[|j]]]; try lia; clear Hj;
      evaluate_answer'; repeat split; repeat constructor. }
  repeat split; try assumption; try apply H4.
  intros events. apply frozen_mainloop, H4.
Qed.

Lemma wrong_answer_on_bad_index_freezes_witness :
  let r := click_alternative 0 (started [q_out_of_range; q1]) in
  snd r = Raise IndexError /\
  score (fst r) = Some (-1) /\
  mainloop [ClickNext; ClickAlternative 1; ClickNext] (fst r) = fst r.
Proof.
  destruct (wrong_answer_on_bad_index_freezes (started [q_out_of_range; q1])
              q_out_of_range [JStr "a"; JStr "b"; JStr "c"] 5 0 0
              eq_refl eq_refl eq_refl eq_refl ltac:(right; simpl; lia) eq_refl
              ltac:(lia) ltac:(simpl; lia)) as (H1 & H2 & _ & _ & H5).
  cbv zeta. split; [exact H1|]. split; [exact H2|]. apply H5.
Defined.

(** ** The program follows the state machine *)

Lemma next_question_keeps_score_label (s : QuizApp) :
  score_label (fst (next_question s)) = score_label s /\
  score (fst (next_question s)) = score s.
Proof.
  split.
  - apply (preserves_apply (fun s' => score_label s' = score_label s)); [|reflexivity].
    unfold next_question. preserve; [intros [] H; exact H | |].
    + unfold load_question. preserve;
        try (intros w [] H; exact H); try (intros [] l n H _; exact H).
      intros alt [] l n H _; exact H.
    + unfold show_final_results, messagebox, destroy. preserve; intros [] H; exact H.
  - apply (preserves_apply (fun s' => score s' = score s)); [|reflexivity].
    apply preserves_next_question.
    + intros s0 ql ab fl sl nb H. exact H.
    + intros x [] H. exact H.
    + apply preserves_show_final_results; intros x [] H; exact H.
Qed.

Lemma awaiting_answer_next_ignored (s : QuizApp) :
  awaiting_answer s = true -> click_next s = (s, Return tt).
Proof.
  unfold awaiting_answer, click_next. intros H. apply andb_prop in H as [_ H].
  destruct (alternative_buttons s); [|discriminate H].
  destruct (next_button s) as [nb|]; [|discriminate H].
  apply andb_prop in H as [_ H]. destruct (b_state nb); [discriminate H | reflexivity].
Qed.

Lemma awaiting_next_disabled (s : QuizApp) :
  awaiting_next s = true -> buttons_disabled s.
Proof.
  unfold awaiting_next, buttons_disabled. intros H. apply andb_prop in H as [_ H].
  destruct (alternative_buttons s) as [btns|]; [|exact I].
  destruct (next_button s); [|discriminate H].
  apply andb_prop in H as [H _]. rewrite forallb_forall in H.
  apply Forall_forall. intros x Hx. apply list_elem_of_In in Hx.
  specialize (H x Hx). destruct (b_state x); [discriminate H | reflexivity].
Qed.

Lemma no_fourth_button (s : QuizApp) (j : nat) :
  widgets_ready s = true -> (3 <= j)%nat -> click_alternative j s = (s, Return tt).
Proof.
  intros Hr Hj. destruct (widgets_ready_inv s Hr) as (_ & b0 & b1 & b2 & Hb).
  unfold click_alternative. rewrite Hb.
  destruct j as [|[|[|j]]]; try lia. reflexivity.
Qed.

(** One click. *)
Lemma dispatch_represents (qs : list json) (a : session) (s : QuizApp) (e : event) :
  forallb playable qs = true ->
  represents qs a s ->
  represents qs (session_step qs a e) (dispatch s e).
Proof.
  intros Hall (Hq & Hi & Ht & Hz & Hl & Hph).
  destruct a as [k z ph]. simpl in *. unfold session_step. simpl.
  destruct ph.
  - (* a question waits for its answer *)
    destruct Hph as (Haw & Hd & Hk).
    destruct (awaiting_answer_inv s Haw) as [Hr Hclick].
    destruct (widgets_ready_inv s Hr) as (Halive & _).
    unfold dispatch. rewrite Halive.
    destruct e as [j|]; simpl.
    + destruct (lookup_lt_is_Some_2 qs k Hk) as [q Hqk]. rewrite Hqk.
      destruct (Nat.ltb_spec j 3) as [Hj|Hj].
      * pose proof (forallb_lookup _ _ _ _ Hall Hqk) as Hp.
        assert (question_at s = Some q) as Hat
          by (unfold question_at; rewrite Hq, Hi, (py_getitem_list qs k q Hqk);
              reflexivity).
        destruct (click_alternative_answers s q z j Haw Hat Hp Hz Hj)
          as (_ & Hz1 & Hn1 & Hr1 & Hd1 & Hqs1 & Ht1 & Hi1).
        destruct (playable_inv q Hp) as (p & alts & c & _ & Hal & Hc & Hlen & Hrange).
        replace c with (Z.of_nat (Z.to_nat c)) in Hc by lia.
        destruct (check_answer_screen s q alts j (Z.to_nat c) z Hr Hat Hal Hc
                    ltac:(lia) Hz Hj) as (_ & _ & Hl1 & _).
        rewrite <- (Hclick j Hj) in Hl1.
        repeat split; simpl; try congruence.
        rewrite Hz1. destruct (is_correct q j); f_equal; lia.
      * rewrite (no_fourth_button s j Hr Hj). repeat split; assumption.
    + rewrite (awaiting_answer_next_ignored s Haw). repeat split; assumption.
  - (* an answer waits for Next *)
    destruct Hph as (Han & Hd & Hk).
    destruct (awaiting_next_inv s Han) as [Hr Hclick].
    destruct (widgets_ready_inv s Hr) as (Halive & _).
    unfold dispatch. rewrite Halive.
    destruct e as [j|]; simpl.
    + rewrite (click_disabled s j (awaiting_next_disabled s Han)).
      repeat split; assumption.
    + destruct (click_next_advances s qs k z Han Hq Hi Ht Hz Hall Hk)
        as (Hz2 & Hq2 & Ht2 & Hi2 & Hmore & Hlast).
      assert (label_synced (fst (click_next s))) as Hl2.
      { rewrite Hclick. unfold label_synced in *.
        destruct (next_question_keeps_score_label s) as [E1 E2].
        rewrite E1, E2. exact Hl. }
      destruct (Nat.ltb_spec (S k) (length qs)) as [Hlt|Hge].
      * destruct (Hmore Hlt) as [Ha2 Hd2].
        repeat split; simpl; try assumption. congruence.
      * assert (S k = length qs) as Hend by lia.
        destruct (Hlast Hend) as [Hr2 Hd2]. rewrite Hd in Hd2.
        repeat split; simpl; assumption.
  - (* the result has been shown *)
    destruct Hph as (Hr & Hd & Hk). unfold dispatch. rewrite Hr.
    destruct e; repeat split; assumption.
Qed.

(** X9: on a non-empty list of playable records the program follows
    the state machine of the quiz, whatever the user clicks and in
    whatever order: an answer on one of the three buttons counts once
    per question, Next goes to the following question only after an
    answer and shows the result after the last one, and every other
    click (Next before an answer, a second answer, anything after the
    result) changes nothing.  At every point the index, the score,
    the score label, the enabled buttons and the dialogs are those of
    the machine. *)
Theorem program_follows_session (qs : list json) (events : list event) :
  qs <> [] ->
  forallb playable qs = true ->
  represents qs
    (fold_left (session_step qs) events (mkSession 0 0 Answering))
    (main (Decoded (JList qs)) events).
Proof.
  intros Hne Hall.
  destruct qs as [|q rest]; [contradiction|].
  pose proof Hall as Hall'. simpl in Hall'. apply andb_prop in Hall' as [Hp _].
  destruct (init_session q rest Hp) as [Hret (Ha & Hq & Hz & Ht & Hi & Hd)].
  destruct (init_returns_list _ Hret) as (_ & _ & _ & _ & _ & _ & _ & _ & _ & Hl).
  unfold main.
  destruct (__init__ (Decoded (JList (q :: rest))) fresh) as [s0 o].
  simpl in *. subst o.
  assert (represents (q :: rest) (mkSession 0 0 Answering) s0) as H0
    by (repeat split; simpl; try assumption; lia).
  clear Ha Hq Hz Ht Hi Hd Hl.
  generalize dependent s0. generalize (mkSession 0 0 Answering).
  induction events as [|e events IH]; intros a s0 H0; [exact H0|].
  unfold mainloop in *. simpl. apply IH.
  apply dispatch_represents; assumption.
Qed.

Lemma program_follows_session_witness :
  represents [q1; q2] (mkSession 1 1 Answering)
    (main (Decoded (JList [q1; q2]))
       [ClickNext; ClickAlternative 1; ClickAlternative 0; ClickNext]).
Proof.
  apply (program_follows_session [q1; q2]
           [ClickNext; ClickAlternative 1; ClickAlternative 0; ClickNext]%nat);
    [discriminate | reflexivity].
Defined.

(** ** What answering and showing never touch *)

(** X10: in whatever state and on whatever data, [check_answer] and
    [load_question], whether they return or raise, change neither the
    loaded questions, the index, the total, the dialogs nor the root
    window, and [load_question] does not change the score: answering
    and showing a question never end the quiz and never move it on. *)
Theorem answering_and_showing_frame (s : QuizApp) (u : Z) :
  (let s' := fst (check_answer u s) in
   quiz_questions s' = quiz_questions s /\
   current_question_index s' = current_question_index s /\
   total_questions s' = total_questions s /\
   dialogs s' = dialogs s /\ root_destroyed s' = root_destroyed s) /\
  (let s' := fst (load_question s) in
   quiz_questions s' = quiz_questions s /\
   current_question_index s' = current_question_index s /\
   total_questions s' = total_questions s /\
   dialogs s' = dialogs s /\ root_destroyed s' = root_destroyed s /\
   score s' = score s).
Proof.
  split.
  - apply (preserves_check_answer
             (fun s' => quiz_questions s' = quiz_questions s /\
                        current_question_index s' = current_question_index s /\
                        total_questions s' = total_questions s /\
                        dialogs s' = dialogs s /\
                        root_destroyed s' = root_destroyed s) u).
    + intros s0 ql ab fl sl nb H. exact H.
    + intros x [] H. exact H.
    + repeat split.
  - apply (preserves_load_question
             (fun s' => quiz_questions s' = quiz_questions s /\
                        current_question_index s' = current_question_index s /\
                        total_questions s' = total_questions s /\
                        dialogs s' = dialogs s /\
                        root_destroyed s' = root_destroyed s /\
                        score s' = score s)).
    + intros s0 ql ab fl sl nb H. exact H.
    + repeat split.
Qed.

(** ** What it takes to pass *)

(** X11: when every question of a non-empty playable list has been
    answered, the result dialog carries the message of the perfect
    score exactly when every answer was correct, and the message of
    failure exactly when [4 * correct + 1 < 3 * total]: as a wrong
    answer takes a point, about three quarters of the answers have to
    be correct to escape the failure message, not half of them. *)
Theorem passing_takes_three_quarters (qs : list json) (choices : list nat) :
  qs <> [] ->
  forallb playable qs = true ->
  forallb (fun c => c <? 3)%nat choices = true ->
  length choices = length qs ->
  let total := Z.of_nat (length qs) in
  let correct := n_correct qs choices in
  exists message,
    dialogs (main (Decoded (JList qs)) (answers_events choices)) =
      [showinfo "Quiz Over"
         ("Quiz Completed!" ++ nl ++ nl ++ "Your final score is " ++
          py_str_int (2 * correct - total) ++ " out of " ++ py_str_int total ++
          "." ++ nl ++ nl ++ message)] /\
    (message = tier_message Perfect <-> correct = total) /\
    (message = tier_message Fail <-> 4 * correct + 1 < 3 * total) /\
    (message = tier_message Pass <-> correct <> total /\ 3 * total <= 4 * correct + 1).
Proof.
  intros Hne Hall Hc Hlen total correct.
  destruct (tally_total qs choices ltac:(lia)) as (Hsum & H0 & H1).
  assert (n_correct qs choices - n_incorrect qs choices = 2 * correct - total) as Hscore
    by (subst correct total; lia).
  exists (result_message (2 * correct - total) total). split.
  - destruct qs as [|q rest]; [contradiction|].
    pose proof Hall as Hall'. simpl in Hall'. apply andb_prop in Hall' as [Hp _].
    destruct (init_session q rest Hp) as [Hret Hs].
    unfold main.
    destruct (__init__ (Decoded (JList (q :: rest))) fresh) as [s0 o].
    simpl in Hret, Hs. subst o.
    destruct (play_all choices (q :: rest) 0 0 s0 Hs Hall Hc ltac:(lia))
      as (_ & _ & _ & Hend).
    assert (choices <> []) as Hcs
      by (intros ->; simpl in Hlen; discriminate Hlen).
    destruct (Hend ltac:(simpl in *; lia) Hcs) as [_ Hd].
    rewrite Hd, drop_0, Z.add_0_l, Hscore. reflexivity.
  - rewrite result_message_spec_tier. unfold spec_tier.
    assert (0 < total) as Hpos
      by (subst total; destruct qs; [contradiction | simpl; lia]).
    assert (correct <= total) as Hle by (subst correct total; lia).
    pose proof (half_floor total (2 * correct - total)) as Hhalf.
    destruct (Z.eqb_spec (2 * correct - total) total) as [He|Hn];
      [|destruct (Z.leb_spec (total / 2) (2 * correct - total)) as [Hge|Hlt]];
      repeat split; intros; unfold tier_message in *;
      try reflexivity; try discriminate; lia.
Qed.

Lemma passing_takes_three_quarters_witness :
  exists message,
    dialogs (main (Decoded (JList [q1; q2]))
               [ClickAlternative 1; ClickNext; ClickAlternative 2; ClickNext]) =
      [showinfo "Quiz Over"
         ("Quiz Completed!" ++ nl ++ nl ++ "Your final score is " ++
          py_str_int 0 ++ " out of " ++ py_str_int 2 ++
          "." ++ nl ++ nl ++ message)] /\
    message = tier_message Fail.
Proof.
  destruct (passing_takes_three_quarters [q1; q2] [1; 2]%nat
              ltac:(discriminate) eq_refl eq_refl eq_refl) as (m & Hd & _ & Hf & _).
  exists m. split; [exact Hd|]. apply Hf. vm_compute. reflexivity.
Defined.

(** ** A later record that cannot be shown *)

(** X12: when Next is clicked after an answer and the next record is a
    dict without [question], [next_question] raises KeyError out of
    [load_question] after the index has moved on and the buttons have
    been enabled again: the window keeps the question and the
    alternatives of the record before, with an empty feedback, and
    waits for an answer, which will be compared with the new record. *)
Theorem next_on_record_without_question
    (s : QuizApp) (qs : list json) (k : nat) (d : list (string * json)) :
  awaiting_next s = true ->
  quiz_questions s = Some (JList qs) ->
  current_question_index s = Some (Z.of_nat k) ->
  total_questions s = Some (Z.of_nat (length qs)) ->
  qs !! S k = Some (JDict d) ->
  dict_get "question" d = None ->
  let s' := dispatch s ClickNext in
  snd (next_question s) = Raise KeyError /\
  current_question_index s' = Some (Z.of_nat (S k)) /\
  question_at s' = Some (JDict d) /\
  question_label s' = question_label s /\
  (map b_text <$> alternative_buttons s') = (map b_text <$> alternative_buttons s) /\
  (l_text <$> feedback_label s') = Some (Str "") /\
  awaiting_answer s' = true /\
  score s' = score s /\ dialogs s' = dialogs s.
Proof.
  intros Ha Hqs Hi Ht Hq Hd s'. subst s'.
  destruct (awaiting_next_inv s Ha) as [Hr Hclick].
  assert (root_destroyed s = false) as Hrd.
  { unfold widgets_ready in Hr. destruct (root_destroyed s); [discriminate Hr|reflexivity]. }
  unfold dispatch. rewrite Hrd. simpl handler. rewrite Hclick. clear Hclick Ha Hrd.
  assert (S k < length qs)%nat as Hk by (apply lookup_lt_is_Some; eauto).
  destruct s as [rd dl qq sc tq ci ql ab fl sl nb].
  unfold widgets_ready in Hr. simpl in *. subst qq ci tq.
  destruct rd; [discriminate Hr|].
  destruct ql as [ql|]; [|discriminate Hr].
  destruct fl as [fl|]; [|discriminate Hr].
  destruct sl as [sl|]; [|discriminate Hr].
  destruct nb as [nb|]; [|discriminate Hr].
  destruct ab as [[|b0 [|b1 [|b2 [|b3 ab]]]]|]; try discriminate Hr. clear Hr.
  pose proof (py_getitem_list qs (S k) _ Hq) as Hcur.
  replace (Z.of_nat (S k)) with (Z.of_nat k + 1) in * by lia.
  assert ((Z.of_nat k + 1 <? Z.of_nat (length qs)) = true) as Hlt'
    by (apply Z.ltb_lt; lia).
  pose proof (py_getitem_dict_missing d _ Hd) as H1.
  clear Hq Hd Hk.
  evaluate_call next_question.
  unfold question_at. cbn [fst snd quiz_questions current_question_index].
  rewrite Hcur. repeat split.
Qed.

Lemma next_on_record_without_question_witness :
  let s := dispatch (started [q1; q_no_question]) (ClickAlternative 1) in
  awaiting_next s = true /\
  question_at (dispatch s ClickNext) = Some q_no_question /\
  (l_text <$> question_label (dispatch s ClickNext)) = Some (Obj (JStr "Q1")) /\
  (map b_text <$> alternative_buttons (dispatch s ClickNext)) =
    Some [Obj (JStr "a"); Obj (JStr "b"); Obj (JStr "c")] /\
  awaiting_answer (dispatch s ClickNext) = true.
Proof.
  cbv zeta.
  assert (awaiting_next (dispatch (started [q1; q_no_question]) (ClickAlternative 1))
          = true) as Ha by (vm_compute; reflexivity).
  destruct (next_on_record_without_question
              (dispatch (started [q1; q_no_question]) (ClickAlternative 1))
              [q1; q_no_question] 0
              [("alternatives", JList [JStr "x"; JStr "y"; JStr "z"]);
               ("correct_answer", JInt 2)]
              Ha ltac:(vm_compute; reflexivity) ltac:(vm_compute; reflexivity)
              ltac:(vm_compute; reflexivity) eq_refl eq_refl)
    as (_ & _ & Hq & Hl & Hb & _ & Hw & _).
  split; [exact Ha|]. split; [exact Hq|].
  split; [rewrite Hl; vm_compute; reflexivity|].
  split; [rewrite Hb; vm_compute; reflexivity | exact Hw].
Defined.

(** ** An answer enables Next or freezes the window *)

Lemma raising_keeps_bind {A B : Type} (P : QuizApp -> Prop) (m : M A) (k : A -> M B) :
  preserves P m -> (forall a, raising_keeps P (k a)) -> raising_keeps P (bind m k).
Proof.
  intros Hm Hk s H. unfold bind. specialize (Hm s H).
  destruct (m s) as [s1 [a|e]]; simpl in *; [apply Hk, Hm | exact Hm].
Qed.

Lemma returning_gives_bind {A B : Type} (Q : QuizApp -> Prop) (m : M A) (k : A -> M B) :
  (forall a, returning_gives Q (k a)) -> returning_gives Q (bind m k).
Proof.
  intros Hk s. unfold bind.
  destruct (m s) as [s1 [a|e]]; simpl; [apply Hk | exact I].
Qed.

Lemma config_next_button_raising (P : QuizApp -> Prop) (f : Button -> Button) :
  raising_keeps P (config_next_button f).
Proof.
  intros s H. unfold config_next_button, bind, getattr, tk_call, modify.
  destruct (next_button s); [|exact H].
  destruct (root_destroyed s); simpl; [exact H | exact I].
Qed.

Lemma config_next_button_returning (st : wstate) :
  returning_gives (fun s => b_state <$> next_button s = Some st)
    (config_next_button (with_state st)).
Proof.
  intros s. unfold config_next_button, bind, getattr, tk_call, modify.
  destruct (next_button s); [|exact I].
  destruct (root_destroyed s); simpl; [exact I|]. destruct s; reflexivity.
Qed.

Lemma check_answer_raising_keeps_next (u : Z) :
  raising_keeps next_disabled (check_answer u).
Proof.
  unfold check_answer.
  repeat match goal with
  | |- raising_keeps _ (bind _ _) => apply raising_keeps_bind; [|intro]
  end; [..|apply config_next_button_raising];
    preserve;
    try (intros w [] H; exact H);
    try (intros [] H; exact H);
    try (intros [] l n H _; exact H).
Qed.

Lemma check_answer_returning_gives_next (u : Z) :
  returning_gives (fun s => b_state <$> next_button s = Some normal) (check_answer u).
Proof.
  unfold check_answer.
  repeat match goal with
  | |- returning_gives _ (bind _ _) => apply returning_gives_bind; intro
  end.
  apply config_next_button_returning.
Qed.

(** X13: on a window that waits for an answer, [check_answer] with any
    argument and on any data leaves every answer button disabled, and
    either returns with the Next button enabled or raises with the
    Next button still disabled; in the second case no button answers
    a click any more, so every later event is ignored and the program
    shows no result: an exception in [check_answer] ends the quiz
    without ending the program. *)
Theorem check_answer_enables_next_or_freezes (s : QuizApp) (u : Z) :
  awaiting_answer s = true ->
  let s' := fst (check_answer u s) in
  buttons_disabled s' /\
  match snd (check_answer u s) with
  | Return _ => b_state <$> next_button s' = Some normal
  | Raise _ =>
      frozen s' /\
      forall events, mainloop events s' = s' /\ dialogs (mainloop events s') = dialogs s
  end.
Proof.
  intros Ha s'. subst s'.
  assert (root_destroyed s = false /\ next_disabled s) as [Hr Hn].
  { unfold awaiting_answer, widgets_ready in Ha. apply andb_prop in Ha as [Hw Ha].
    split; [destruct (root_destroyed s); [discriminate Hw | reflexivity]|].
    unfold next_disabled. destruct (alternative_buttons s); [|discriminate Ha].
    destruct (next_button s) as [nb|]; [|exact I].
    apply andb_prop in Ha as [_ Ha]. destruct (b_state nb); [discriminate Ha | reflexivity]. }
  pose proof (check_answer_disables s u Hr) as Hb. split; [exact Hb|].
  pose proof (check_answer_raising_keeps_next u s Hn) as Hraise.
  pose proof (check_answer_returning_gives_next u s) as Hret.
  destruct (snd (check_answer u s)) as [[]|e]; [exact Hret|].
  assert (frozen (fst (check_answer u s))) as Hf by (split; [exact Hb | exact Hraise]).
  split; [exact Hf|]. intros events. rewrite (frozen_mainloop _ events Hf).
  split; [reflexivity|].
  apply (preserves_check_answer (fun s' => dialogs s' = dialogs s) u).
  - intros s0 ql ab fl sl nb H. exact H.
  - intros x [] H. exact H.
  - reflexivity.
Qed.

Lemma check_answer_enables_next_or_freezes_witness :
  snd (check_answer 1 (started [q1; q2])) = Return tt /\
  b_state <$> next_button (fst (check_answer 1 (started [q1; q2]))) = Some normal.
Proof.
  pose proof (check_answer_enables_next_or_freezes (started [q1; q2]) 1
                ltac:(vm_compute; reflexivity)) as [_ H].
  cbv zeta in H. split; [vm_compute; reflexivity|].
  replace (snd (check_answer 1 (started [q1; q2]))) with (@Return unit tt) in H
    by (vm_compute; reflexivity).
  exact H.
Defined.

(** ** Answering and going on exclude each other *)

Lemma config_next_button_disables :
  preserves next_disabled (config_next_button (with_state disabled)).
Proof.
  intros s H. unfold config_next_button, bind, getattr, tk_call, modify.
  destruct (next_button s) eqn:Hn; [|exact H].
  destruct (root_destroyed s); simpl; [exact H|].
  destruct s. reflexivity.
Qed.

Lemma after_next_button_next_disabled :
  preserves next_disabled
    (config_all_buttons (fun b => mkButton (b_text b) normal "#4CAF50") ;;;
     let* question_data := current_question_data in
     let* _ := getattr question_label in
     let* q := lift (py_getitem question_data (JStr "question")) in
     config_label question_label set_question_label
       (fun w => mkLabel (tk_text q (l_text w)) (l_fg w)) ;;;
     let* alternatives := lift (py_getitem question_data (JStr "alternatives")) in
     let* items := lift (py_iter alternatives) in
     show_alternatives 0 items).
Proof.
  preserve;
    try (intros w [] H; exact H);
    try (intros [] l n H _; exact H).
  intros x [] l n H _; exact H.
Qed.

Lemma load_question_next_disabled : preserves next_disabled load_question.
Proof.
  unfold load_question.
  apply preserves_bind; [preserve; intros w [] H; exact H | intros _].
  apply preserves_bind; [apply config_next_button_disables | intros _].
  apply after_next_button_next_disabled.
Qed.

Lemma load_question_one_way : preserves one_way load_question.
Proof.
  intros s H. unfold load_question.
  apply bind_split.
  - intros s1 e E.
    assert (preserves one_way
              (config_label feedback_label set_feedback_label
                 (fun w => mkLabel (Str "") (l_fg w)))) as Hp
      by (preserve; intros w [] H'; exact H').
    specialize (Hp s H). rewrite E in Hp. exact Hp.
  - intros s1 [] E.
    assert (one_way s1) as H1.
    { assert (preserves one_way
                (config_label feedback_label set_feedback_label
                   (fun w => mkLabel (Str "") (l_fg w)))) as Hp
        by (preserve; intros w [] H'; exact H').
      specialize (Hp s H). rewrite E in Hp. exact Hp. }
    apply bind_split.
    + intros s2 e E2. revert E2.
      unfold config_next_button, bind, getattr, tk_call, modify.
      destruct (next_button s1); [|intros [= <- _]; exact H1].
      destruct (root_destroyed s1); [intros [= <- _]; exact H1 | discriminate].
    + intros s2 [] E2. right.
      apply after_next_button_next_disabled.
      pose proof (config_next_button_returning disabled s1) as Hd.
      rewrite E2 in Hd. simpl in Hd. unfold next_disabled.
      destruct (next_button s2) as [nb|]; [|exact I].
      simpl in Hd. congruence.
Qed.

Lemma next_question_one_way : preserves one_way next_question.
Proof.
  unfold next_question. preserve.
  - intros [] H. exact H.
  - apply load_question_one_way.
  - apply preserves_show_final_results; intros x [] H; exact H.
Qed.

Lemma dispatch_one_way (s : QuizApp) (e : event) : one_way s -> one_way (dispatch s e).
Proof.
  intros H. unfold dispatch. destruct (root_destroyed s) eqn:Hr; [exact H|].
  destruct e as [j|]; simpl.
  - unfold click_alternative. destruct (alternative_buttons s) as [btns|]; [|exact H].
    destruct (btns !! j) as [b|]; [|exact H]. destruct (b_state b); [|exact H].
    left. apply check_answer_disables, Hr.
  - unfold click_next. destruct (next_button s) as [b|]; [|exact H].
    destruct (b_state b); [|exact H].
    apply next_question_one_way, H.
Qed.

Lemma init_next_disabled (src : source) : next_disabled (fst (__init__ src fresh)).
Proof.
  destruct src as [| |v]; [exact I | exact I|].
  unfold __init__. do 3 (erewrite bind_Return by reflexivity).
  apply (preserves_apply next_disabled); [|exact I].
  preserve; try (intros [] H; exact H).
  - unfold setup_widgets. preserve; try (intros [] H; exact H).
    intros [] _. reflexivity.
  - apply load_question_next_disabled.
Qed.

Lemma main_one_way (src : source) (events : list event) : one_way (main src events).
Proof.
  unfold main. pose proof (init_next_disabled src) as H0.
  destruct (__init__ src fresh) as [s0 [[]|e]]; simpl in H0; [|right; exact H0].
  assert (one_way s0) as H by (right; exact H0). clear H0.
  revert s0 H. induction events as [|e events IH]; intros s0 H; [exact H|].
  unfold mainloop in *. simpl. apply IH, dispatch_one_way, H.
Qed.

(** X14: whatever the file holds and whatever the user clicks, the
    window never offers an enabled answer button together with an
    enabled Next button: the user cannot go on to the next question
    while an answer can still be given, nor answer again once Next is
    enabled. *)
Theorem answer_and_next_never_both_enabled
    (src : source) (events : list event) (btns : list Button) (j : nat) (b nb : Button) :
  alternative_buttons (main src events) = Some btns ->
  btns !! j = Some b ->
  next_button (main src events) = Some nb ->
  b_state b = disabled \/ b_state nb = disabled.
Proof.
  intros Hb Hj Hn. destruct (main_one_way src events) as [H|H].
  - left. unfold buttons_disabled in H. rewrite Hb in H.
    exact (Forall_lookup_1 _ _ _ _ H Hj).
  - right. unfold next_disabled in H. rewrite Hn in H. exact H.
Qed.

Lemma answer_and_next_never_both_enabled_witness :
  exists b nb,
    (b_state b = disabled \/ b_state nb = disabled) /\
    next_button (main (Decoded (JList [q1; q2])) [ClickAlternative 1]) = Some nb /\
    b_state nb = normal.
Proof.
  eexists _, _. split.
  - eapply (answer_and_next_never_both_enabled (Decoded (JList [q1; q2]))
              [ClickAlternative 1]) with (j := 0%nat); reflexivity.
  - split; reflexivity.
Defined.
